(** * Sentiment pipeline of [app.py]: a shallow embedding and its properties

    The program is a Flask handler that decodes an uploaded CSV, sends the
    first field of every row to an external sentiment service, stores the
    labelled rows through pandas, uploads the file to object storage and
    draws three charts from the stored file.

    Python text is a list of Unicode code points, bytes are [Byte.byte],
    exceptions are values of [exn], and every function of [app.py] that
    touches the outside world is a computation in a state-and-exception
    monad over [World].  The external services are oracles of an [Env]
    record that may depend on everything that happened before. *)

From Stdlib Require Import Strings.String Strings.Ascii Strings.Byte.
From Stdlib Require Import List NArith Arith Lia Bool.
From Stdlib Require Import Sorting.Sorted Sorting.Permutation.
Import ListNotations.

Set Implicit Arguments.

(** ** Python text *)

Definition codepoint := N.
Definition str := list codepoint.

(** A literal of the source, as code points. *)
Definition lit (s : string) : str :=
  List.map N_of_ascii (list_ascii_of_string s).

Definition bytes := list byte.
Definition blit (s : string) : bytes :=
  List.map byte_of_ascii (list_ascii_of_string s).

Fixpoint str_eqb (a b : str) : bool :=
  match a, b with
  | [], [] => true
  | x :: a', y :: b' => N.eqb x y && str_eqb a' b'
  | _, _ => false
  end.

Definition str_eq_dec : forall a b : str, {a = b} + {a <> b} :=
  list_eq_dec N.eq_dec.

(** [sep.join(items)] *)
Fixpoint join (sep : str) (items : list str) : str :=
  match items with
  | [] => []
  | [x] => x
  | x :: rest => x ++ sep ++ join sep rest
  end.

(** [s.endswith(suffix)] *)
Definition endswith (s suffix : str) : bool :=
  str_eqb (skipn (length s - length suffix) s) suffix
  && (length suffix <=? length s).

(** [str.isspace] for one character: the characters [str.split()] with no
    argument treats as separators. *)
Definition isspace (c : codepoint) : bool :=
  ((9 <=? c) && (c <=? 13) || (28 <=? c) && (c <=? 32)
   || (c =? 133) || (c =? 160) || (c =? 5760)
   || (8192 <=? c) && (c <=? 8202)
   || (c =? 8232) || (c =? 8233) || (c =? 8239) || (c =? 8287)
   || (c =? 12288))%N.

Definition flush (cur : str) : list str :=
  match cur with
  | [] => []
  | _ => [rev cur]
  end.

(** [s.split()]: maximal runs of non-space characters; [cur] holds the
    current run, last character first. *)
Fixpoint split_from (cur : str) (s : str) : list str :=
  match s with
  | [] => flush cur
  | c :: s' =>
      if isspace c then flush cur ++ split_from [] s'
      else split_from (c :: cur) s'
  end.

Definition split (s : str) : list str := split_from [] s.

(** Line boundaries of [str.splitlines]. *)
Definition is_linebreak (c : codepoint) : bool :=
  ((10 <=? c) && (c <=? 13) || (28 <=? c) && (c <=? 30)
   || (c =? 133) || (c =? 8232) || (c =? 8233))%N.

(** [s.splitlines()]: lines without their terminators; CR LF is one
    terminator; no empty line after a final terminator. *)
Fixpoint splitlines_from (cur : str) (s : str) : list str :=
  match s with
  | [] => flush cur
  | c :: s' =>
      if (c =? 13)%N then
        match s' with
        | c' :: s'' =>
            if (c' =? 10)%N then rev cur :: splitlines_from [] s''
            else rev cur :: splitlines_from [] s'
        | [] => rev cur :: splitlines_from [] s'
        end
      else if is_linebreak c then rev cur :: splitlines_from [] s'
      else splitlines_from (c :: cur) s'
  end.

Definition splitlines (s : str) : list str := splitlines_from [] s.

(** [os.path.join(a, b)] and [os.path.basename(p)] on POSIX. *)
Definition os_path_join (a b : str) : str :=
  match b with
  | 47%N :: _ => b
  | _ =>
      match rev a with
      | [] => b
      | 47%N :: _ => a ++ b
      | _ => a ++ 47%N :: b
      end
  end.

Fixpoint basename_from (cur : str) (p : str) : str :=
  match p with
  | [] => rev cur
  | c :: p' => if (c =? 47)%N then basename_from [] p' else basename_from (c :: cur) p'
  end.

Definition os_path_basename (p : str) : str := basename_from [] p.

(** ** Exceptions and results *)

Inductive exn : Type :=
| UnicodeDecodeError
| CsvError (msg : str)
| EmptyDataError (msg : str)
| ParserError (msg : str)
| FileNotFoundError (path : str)
| ValueError (msg : str)
| KeyError (key : str)
| TypeError (msg : str)
| ServiceError (code : str).

Inductive result (A : Type) : Type :=
| Ok (a : A)
| Raise (e : exn).

Arguments Ok {A} a.
Arguments Raise {A} e.

(** ** Decoding the upload: [bytes.decode] *)

Module Codec.

Definition continuation (b : N) : bool := ((128 <=? b) && (b <=? 191))%N.

(** [bytes.decode('utf-8')], strict: shortest forms only, no surrogates,
    nothing above U+10FFFF. *)
Fixpoint utf8_from (acc : str) (bs : bytes) : result str :=
  match bs with
  | [] => Ok (rev acc)
  | b0 :: r0 =>
      let x0 := Byte.to_N b0 in
      if (x0 <? 128)%N then utf8_from (x0 :: acc) r0
      else if ((194 <=? x0) && (x0 <=? 223))%N then
        match r0 with
        | b1 :: r1 =>
            let x1 := Byte.to_N b1 in
            if continuation x1
            then utf8_from (((x0 - 192) * 64 + (x1 - 128))%N :: acc) r1
            else Raise UnicodeDecodeError
        | _ => Raise UnicodeDecodeError
        end
      else if ((224 <=? x0) && (x0 <=? 239))%N then
        match r0 with
        | b1 :: b2 :: r2 =>
            let x1 := Byte.to_N b1 in
            let x2 := Byte.to_N b2 in
            let lo := if (x0 =? 224)%N then 160%N else 128%N in
            let hi := if (x0 =? 237)%N then 159%N else 191%N in
            if ((lo <=? x1) && (x1 <=? hi))%N && continuation x2
            then utf8_from
                   (((x0 - 224) * 4096 + (x1 - 128) * 64 + (x2 - 128))%N :: acc) r2
            else Raise UnicodeDecodeError
        | _ => Raise UnicodeDecodeError
        end
      else if ((240 <=? x0) && (x0 <=? 244))%N then
        match r0 with
        | b1 :: b2 :: b3 :: r3 =>
            let x1 := Byte.to_N b1 in
            let x2 := Byte.to_N b2 in
            let x3 := Byte.to_N b3 in
            let lo := if (x0 =? 240)%N then 144%N else 128%N in
            let hi := if (x0 =? 244)%N then 143%N else 191%N in
            if ((lo <=? x1) && (x1 <=? hi))%N && continuation x2 && continuation x3
            then utf8_from
                   (((x0 - 240) * 262144 + (x1 - 128) * 4096
                     + (x2 - 128) * 64 + (x3 - 128))%N :: acc) r3
            else Raise UnicodeDecodeError
        | _ => Raise UnicodeDecodeError
        end
      else Raise UnicodeDecodeError
  end.

Definition decode_utf8 (bs : bytes) : result str := utf8_from [] bs.

(** [bytes.decode('ISO-8859-1')]: every byte is the code point of the
    same number. *)
Definition decode_latin1 (bs : bytes) : result str :=
  Ok (List.map Byte.to_N bs).

End Codec.

(** ** The rows of the upload: [csv.reader] with the default dialect

    The reader of the [csv] module is a character automaton.  The default
    dialect has the comma as delimiter, the double quote as quote character
    (code point 34), doubled quotes inside
    quoted fields, no escape character, no skipping of initial spaces and
    is not strict.  [None] stands for the end of a line. *)

Module Csv.

Inductive state : Type :=
| START_RECORD
| START_FIELD
| IN_FIELD
| IN_QUOTED_FIELD
| QUOTE_IN_QUOTED_FIELD
| EAT_CRNL.

(** [field] is the field being read, last character first; [fields] are
    the fields of the record read so far, last field first. *)
Record reader : Type := {
  st : state;
  field : str;
  fields : list str
}.

Definition delimiter : codepoint := 44%N.
Definition quotechar : codepoint := 34%N.
Definition field_limit : N := 131072%N.

Definition parse_reset : reader :=
  {| st := START_RECORD; field := []; fields := [] |}.

Definition set_state (s : state) (r : reader) : reader :=
  {| st := s; field := field r; fields := fields r |}.

Definition parse_save_field (r : reader) : reader :=
  {| st := st r; field := []; fields := rev (field r) :: fields r |}.

Definition parse_add_char (r : reader) (c : codepoint) : result reader :=
  if (field_limit <=? N.of_nat (List.length (field r)))%N
  then Raise (CsvError (lit "field larger than field limit (131072)"))
  else Ok {| st := st r; field := c :: field r; fields := fields r |}.

Definition is_newline (c : codepoint) : bool := ((c =? 10) || (c =? 13))%N.

Definition end_of_record (c : option codepoint) (r : reader) : reader :=
  match c with
  | None => set_state START_RECORD (parse_save_field r)
  | Some _ => set_state EAT_CRNL (parse_save_field r)
  end.

Definition in_start_field (r : reader) (c : option codepoint) : result reader :=
  match c with
  | None => Ok (end_of_record c r)
  | Some x =>
      if is_newline x then Ok (end_of_record c r)
      else if (x =? quotechar)%N then Ok (set_state IN_QUOTED_FIELD r)
      else if (x =? delimiter)%N then Ok (parse_save_field r)
      else
        match parse_add_char r x with
        | Ok r' => Ok (set_state IN_FIELD r')
        | Raise e => Raise e
        end
  end.

Definition parse_process_char (r : reader) (c : option codepoint) : result reader :=
  match st r with
  | START_RECORD =>
      match c with
      | None => Ok r
      | Some x =>
          if is_newline x then Ok (set_state EAT_CRNL r)
          else in_start_field (set_state START_FIELD r) c
      end
  | START_FIELD => in_start_field r c
  | IN_FIELD =>
      match c with
      | None => Ok (end_of_record c r)
      | Some x =>
          if is_newline x then Ok (end_of_record c r)
          else if (x =? delimiter)%N
          then Ok (set_state START_FIELD (parse_save_field r))
          else parse_add_char r x
      end
  | IN_QUOTED_FIELD =>
      match c with
      | None => Ok r
      | Some x =>
          if (x =? quotechar)%N then Ok (set_state QUOTE_IN_QUOTED_FIELD r)
          else parse_add_char r x
      end
  | QUOTE_IN_QUOTED_FIELD =>
      match c with
      | None => Ok (end_of_record c r)
      | Some x =>
          if (x =? quotechar)%N then
            match parse_add_char r x with
            | Ok r' => Ok (set_state IN_QUOTED_FIELD r')
            | Raise e => Raise e
            end
          else if (x =? delimiter)%N
          then Ok (set_state START_FIELD (parse_save_field r))
          else if is_newline x then Ok (end_of_record c r)
          else
            match parse_add_char r x with
            | Ok r' => Ok (set_state IN_FIELD r')
            | Raise e => Raise e
            end
      end
  | EAT_CRNL =>
      match c with
      | None => Ok (set_state START_RECORD r)
      | Some x =>
          if is_newline x then Ok r
          else Raise (CsvError (lit "new-line character seen in unquoted field"))
      end
  end.

Definition in_quoted_field (s : state) : bool :=
  match s with
  | IN_QUOTED_FIELD => true
  | _ => false
  end.

(** One line of input: its characters, then the end of line. *)
Fixpoint feed_line (r : reader) (line : str) : result reader :=
  match line with
  | [] => parse_process_char r None
  | c :: line' =>
      match parse_process_char r (Some c) with
      | Ok r' => feed_line r' line'
      | Raise e => Raise e
      end
  end.

(** The iteration of the reader over the lines it was given: the rows it
    yields, in order, and the error that ends the iteration if there is
    one.  The reader is lazy: the rows before an error have been handed
    to the loop body when the error is raised. *)
Fixpoint iterate (r : reader) (lines : list str) : list (list str) * option exn :=
  match lines with
  | [] =>
      if negb (List.length (field r) =? 0) || in_quoted_field (st r)
      then ([rev (fields (parse_save_field r))], None)
      else ([], None)
  | line :: rest =>
      match feed_line r line with
      | Raise e => ([], Some e)
      | Ok r' =>
          match st r' with
          | START_RECORD =>
              let (rows, err) := iterate parse_reset rest in
              (rev (fields r') :: rows, err)
          | _ => iterate r' rest
          end
      end
  end.

Definition reader_rows (lines : list str) : list (list str) * option exn :=
  iterate parse_reset lines.

End Csv.

(** ** Counting: [collections.Counter] and [most_common] *)

Section Tally.

Variable A : Type.
Variable eqb : A -> A -> bool.

(** [counts[x] += 1] on an insertion-ordered dict: a key already present
    keeps its place, a new key goes to the end. *)
Fixpoint bump (x : A) (counts : list (A * nat)) : list (A * nat) :=
  match counts with
  | [] => [(x, 1)]
  | (y, n) :: rest => if eqb y x then (y, S n) :: rest else (y, n) :: bump x rest
  end.

(** [Counter(items)] *)
Definition Counter (items : list A) : list (A * nat) :=
  fold_left (fun counts x => bump x counts) items [].

(** Insertion into a list sorted by decreasing count, before every entry
    whose count is not larger. *)
Fixpoint insert_desc (e : A * nat) (sorted : list (A * nat)) : list (A * nat) :=
  match sorted with
  | [] => [e]
  | y :: rest =>
      if snd e <? snd y then y :: insert_desc e rest else e :: sorted
  end.

(** [sorted(entries, key=itemgetter(1), reverse=True)]: the sort is
    stable, entries of equal count stay in their order. *)
Definition sort_desc (entries : list (A * nat)) : list (A * nat) :=
  fold_right insert_desc [] entries.

(** [counter.most_common(n)] *)
Definition most_common (n : nat) (counts : list (A * nat)) : list (A * nat) :=
  firstn n (sort_desc counts).

End Tally.

(** ** The table library: [pandas.DataFrame], [to_csv], [read_csv]

    A CSV file is kept as the sequence of its records, each a sequence of
    fields; a record without fields is a blank line.  The quoting layer of
    the file format is below this model. *)

Module Pandas.

(** A value of a column: a Python [str], the missing value [nan], or a
    number the reader made of the text. *)
Inductive cell : Type :=
| CStr (s : str)
| CNaN
| CNumber (repr : str).

Definition cell_eqb (a b : cell) : bool :=
  match a, b with
  | CStr x, CStr y => str_eqb x y
  | CNaN, CNaN => true
  | CNumber x, CNumber y => str_eqb x y
  | _, _ => false
  end.

Definition is_nan (c : cell) : bool :=
  match c with
  | CNaN => true
  | _ => false
  end.

(** The text [to_csv] writes for a value. *)
Definition cell_text (c : cell) : str :=
  match c with
  | CStr s => s
  | CNaN => []
  | CNumber r => r
  end.

(** A frame, column by column, in column order. *)
Definition DataFrame : Type := list (str * list cell).

Definition columns (df : DataFrame) : list str := List.map fst df.

Definition nrows (df : DataFrame) : nat :=
  match df with
  | [] => 0
  | (_, values) :: _ => List.length values
  end.

(** A Python dict with string keys, in insertion order. *)
Definition dict : Type := list (str * cell).

Definition mem (k : str) (ks : list str) : bool := existsb (str_eqb k) ks.

Definition dict_get (d : dict) (k : str) : cell :=
  match find (fun kv => str_eqb (fst kv) k) d with
  | Some kv => snd kv
  | None => CNaN
  end.

(** The keys of all records, each once, in the order they first occur. *)
Definition union_keys (ds : list dict) : list str :=
  fold_left
    (fun acc d =>
       fold_left (fun acc k => if mem k acc then acc else acc ++ [k])
                 (List.map fst d) acc)
    ds [].

(** [pd.DataFrame(records)] for a list of dicts: one column per key. *)
Definition of_records (ds : list dict) : DataFrame :=
  List.map (fun k => (k, List.map (fun d => dict_get d k) ds)) (union_keys ds).

(** [df.to_csv(path, index=False)]: the line of column names, then one
    line per row. *)
Definition to_csv (df : DataFrame) : list (list str) :=
  columns df
  :: List.map
       (fun i => List.map (fun col => cell_text (nth i (snd col) CNaN)) df)
       (seq 0 (nrows df)).

Definition is_blank (record : list str) : bool :=
  match record with
  | [] => true
  | _ => false
  end.

Fixpoint enumerate_from {A : Type} (i : nat) (l : list A) : list (nat * A) :=
  match l with
  | [] => []
  | x :: l' => (i, x) :: enumerate_from (S i) l'
  end.

(** [pd.read_csv(path)] on the records of the file: blank lines are
    skipped, the first line left names the columns, a file without such
    a line has no columns to parse, a line longer than the header is
    rejected and a shorter one is filled with missing values.  [infer]
    is the type inference of the reader for one column. *)
Definition read_csv (infer : list str -> list cell) (file : list (list str))
  : result DataFrame :=
  match filter (fun r => negb (is_blank r)) file with
  | [] => Raise (EmptyDataError (lit "No columns to parse from file"))
  | header :: body =>
      if existsb (fun r => List.length header <? List.length r) body
      then Raise (ParserError (lit "Error tokenizing data"))
      else Ok (List.map
                 (fun jk => (snd jk, infer (List.map (fun r => nth (fst jk) r []) body)))
                 (enumerate_from 0 header))
  end.

(** [df[name]]: the first column of that name. *)
Definition column (df : DataFrame) (name : str) : result (list cell) :=
  match find (fun col => str_eqb (fst col) name) df with
  | Some col => Ok (snd col)
  | None => Raise (KeyError name)
  end.

(** [series.value_counts()]: the distinct values that are not missing
    with their numbers of occurrences, most frequent first. *)
Definition value_counts (values : list cell) : list (cell * nat) :=
  sort_desc (Counter cell_eqb (filter (fun c => negb (is_nan c)) values)).

End Pandas.

(** ** The world of a request *)

(** A chart as [savefig] draws it: what is plotted. *)
Inductive image : Type :=
| BarImage (counts : list (Pandas.cell * nat))
| PieImage (counts : list (Pandas.cell * nat))
| WordImage (words : list (str * nat)).

(** What the program did to the outside, with the answer it got. *)
Inductive event : Type :=
| EvDetectSentiment (text : str) (answer : result str)
| EvDetectKeyPhrases (text : str) (answer : result (list str))
| EvUploadFile (local_path bucket key : str) (answer : result unit)
| EvSavefig (img : image).

Inductive file_content : Type :=
| FCsv (records : list (list str))
| FPng (img : image).

(** [trace] is in the order of time; in [fs] the latest write of a path
    comes first. *)
Record World : Type := {
  trace : list event;
  fs : list (str * file_content);
  stdout : list str
}.

(** The collaborators and the configuration of the process.  A service
    sees the whole history and answers with a value or an exception.
    [detect_sentiment] gives the entry [Sentiment] of the response. *)
Record Env : Type := {
  detect_sentiment : list event -> str -> result str;
  detect_key_phrases : list event -> str -> result (list str);
  s3_upload_file : list event -> str -> str -> str -> result unit;
  gettempdir : str;
  bucket_name : str;
  infer_column : list str -> list Pandas.cell
}.

(** State that survives an exception, and the exception or the value. *)
Definition M (A : Type) : Type := World -> World * result A.

Definition ret {A : Type} (a : A) : M A := fun w => (w, Ok a).

Definition raise {A : Type} (e : exn) : M A := fun w => (w, Raise e).

Definition bind {A B : Type} (m : M A) (k : A -> M B) : M B :=
  fun w =>
    match m w with
    | (w', Ok a) => k a w'
    | (w', Raise e) => (w', Raise e)
    end.

Definition lift {A : Type} (r : result A) : M A := fun w => (w, r).

(** [try: m  except Exception as e: handler e] *)
Definition try_except {A : Type} (m : M A) (handler : exn -> M A) : M A :=
  fun w =>
    match m w with
    | (w', Ok a) => (w', Ok a)
    | (w', Raise e) => handler e w'
    end.

Notation "x <- m ;; k" := (bind m (fun x => k))
  (at level 61, m at next level, right associativity).
Notation "m ;;; k" := (bind m (fun _ => k))
  (at level 61, right associativity).

Definition log (ev : event) (w : World) : World :=
  {| trace := trace w ++ [ev]; fs := fs w; stdout := stdout w |}.

Definition call_detect_sentiment (env : Env) (text : str) : M str :=
  fun w =>
    let answer := detect_sentiment env (trace w) text in
    (log (EvDetectSentiment text answer) w, answer).

Definition call_detect_key_phrases (env : Env) (text : str) : M (list str) :=
  fun w =>
    let answer := detect_key_phrases env (trace w) text in
    (log (EvDetectKeyPhrases text answer) w, answer).

Definition call_upload_file (env : Env) (local_path bucket key : str) : M unit :=
  fun w =>
    let answer := s3_upload_file env (trace w) local_path bucket key in
    (log (EvUploadFile local_path bucket key answer) w, answer).

Definition print (line : str) : M unit :=
  fun w => ({| trace := trace w; fs := fs w; stdout := stdout w ++ [line] |}, Ok tt).

Definition write_file (path : str) (content : file_content) : M unit :=
  fun w => ({| trace := trace w; fs := (path, content) :: fs w; stdout := stdout w |}, Ok tt).

Definition lookup {A : Type} (k : str) (l : list (str * A)) : option A :=
  match find (fun kv => str_eqb (fst kv) k) l with
  | Some kv => Some (snd kv)
  | None => None
  end.

Definition read_file (path : str) : M file_content :=
  fun w =>
    match lookup path (fs w) with
    | Some content => (w, Ok content)
    | None => (w, Raise (FileNotFoundError path))
    end.

Definition savefig (img : image) : M image :=
  fun w => (log (EvSavefig img) w, Ok img).

(** [str(e)] *)
Definition exn_str (e : exn) : str :=
  match e with
  | UnicodeDecodeError => lit "codec can't decode"
  | CsvError m | EmptyDataError m | ParserError m | FileNotFoundError m
  | ValueError m | KeyError m | TypeError m | ServiceError m => m
  end.

(** ** The functions of [app.py] *)

Record FileStorage : Type := {
  filename : str;
  stream : bytes
}.

Record AnalysisResult : Type := {
  sentiment_response : str;
  key_phrases_response : list str
}.

Record ResultRecord : Type := {
  Review : str;
  Sentiment : str
}.

Definition upload_local_file_to_s3 (env : Env) (local_file_path bucket s3_file_name : str)
  : M bool :=
  try_except
    (call_upload_file env local_file_path bucket s3_file_name ;;;
     print (lit "Local file " ++ local_file_path ++ lit " uploaded to " ++ bucket
            ++ lit " as " ++ s3_file_name) ;;;
     ret true)
    (fun e =>
       print (lit "Error uploading local file: " ++ exn_str e) ;;;
       ret false).

Definition analyze_with_comprehend (env : Env) (text : str) : M AnalysisResult :=
  sentiment <- call_detect_sentiment env text ;;
  key_phrases <- call_detect_key_phrases env text ;;
  ret {| sentiment_response := sentiment; key_phrases_response := key_phrases |}.

(** Lines 51 to 55: [file.read()] after [file.seek(0)] is the whole upload;
    only a [UnicodeDecodeError] of the first decoding is handled. *)
Definition decode_upload (data : bytes) : result str :=
  match Codec.decode_utf8 data with
  | Ok text => Ok text
  | Raise UnicodeDecodeError => Codec.decode_latin1 data
  | Raise e => Raise e
  end.

(** Lines 57 to 62: the loop over the rows of the reader. *)
Fixpoint for_rows (env : Env) (rows : list (list str)) (results : list ResultRecord)
  : M (list ResultRecord) :=
  match rows with
  | [] => ret results
  | row :: rest =>
      match row with
      | text :: _ =>
          analysis_result <- analyze_with_comprehend env text ;;
          let sentiment := sentiment_response analysis_result in
          for_rows env rest (results ++ [{| Review := text; Sentiment := sentiment |}])
      | [] => for_rows env rest results
      end
  end.

(** Lines 48 to 62 of [process_csv]: the list [results]. *)
Definition process_csv_results (env : Env) (file : FileStorage) : M (list ResultRecord) :=
  text <- lift (decode_upload (stream file)) ;;
  let (rows, stop) := Csv.reader_rows (splitlines text) in
  results <- for_rows env rows [] ;;
  match stop with
  | Some e => raise e
  | None => ret results
  end.

Definition record_dict (r : ResultRecord) : Pandas.dict :=
  [(lit "Review", Pandas.CStr (Review r)); (lit "Sentiment", Pandas.CStr (Sentiment r))].

Definition csv_file_path (env : Env) : str :=
  os_path_join (gettempdir env) (lit "sentiment_analysis_results.csv").

Definition process_csv (env : Env) (file : FileStorage) : M str :=
  results <- process_csv_results env file ;;
  let df := Pandas.of_records (List.map record_dict results) in
  write_file (csv_file_path env) (FCsv (Pandas.to_csv df)) ;;;
  upload_local_file_to_s3 env (csv_file_path env) (bucket_name env)
    (os_path_basename (csv_file_path env)) ;;;
  ret (csv_file_path env).

(** [pd.read_csv(csv_file_path)]; a PNG file is not UTF-8 text. *)
Definition pd_read_csv (env : Env) (path : str) : M Pandas.DataFrame :=
  content <- read_file path ;;
  match content with
  | FCsv records => lift (Pandas.read_csv (infer_column env) records)
  | FPng _ => raise UnicodeDecodeError
  end.

(** The items of [' '.join(items)] must all be [str]. *)
Fixpoint str_items (items : list Pandas.cell) : result (list str) :=
  match items with
  | [] => Ok []
  | Pandas.CStr s :: rest =>
      match str_items rest with
      | Ok l => Ok (s :: l)
      | Raise e => Raise e
      end
  | _ :: _ => Raise (TypeError (lit "sequence item: expected str instance"))
  end.

(** Lines 105 to 108: the ten most common words of all reviews. *)
Definition word_frequency (reviews : list str) : list (str * nat) :=
  let all_reviews := join (lit " ") reviews in
  let word_counts := Counter str_eqb (split all_reviews) in
  most_common 10 word_counts.

Definition visualize_sentiment_trends (env : Env) (csv_path : str)
  : M (image * image * image) :=
  df <- pd_read_csv env csv_path ;;
  if negb (Pandas.mem (lit "Sentiment") (Pandas.columns df))
  then raise (ValueError (lit "CSV must contain 'Sentiment' column."))
  else
    sentiment <- lift (Pandas.column df (lit "Sentiment")) ;;
    bar_image_stream <- savefig (BarImage (Pandas.value_counts sentiment)) ;;
    pie_image_stream <- savefig (PieImage (Pandas.value_counts sentiment)) ;;
    review <- lift (Pandas.column df (lit "Review")) ;;
    reviews <- lift (str_items review) ;;
    word_frequency_image_stream <- savefig (WordImage (word_frequency reviews)) ;;
    ret (bar_image_stream, pie_image_stream, word_frequency_image_stream).

Inductive http_method : Type := GET | POST.

(** [request.method] and [request.files]. *)
Record Request : Type := {
  method : http_method;
  req_files : list (str * FileStorage)
}.

(** A plain body with its status, or [render_template] with its arguments. *)
Inductive response : Type :=
| Plain (body : str) (status : N)
| Template (name : str) (bar_image pie_image word_frequency_image : option str).

(** [bool(file)] of a werkzeug [FileStorage]: its file name is not empty. *)
Definition truthy (file : FileStorage) : bool :=
  negb (str_eqb (filename file) []).

Definition bar_image_path : str := os_path_join (lit "static") (lit "sentiment_bar.png").
Definition pie_image_path : str := os_path_join (lit "static") (lit "sentiment_pie.png").
Definition word_frequency_image_path : str :=
  os_path_join (lit "static") (lit "word_frequency.png").

Definition static_url (path : str) : str := lit "/static/" ++ os_path_basename path.

(** The local [file_name] of line 138 is never used and is left out. *)
Definition upload_file (env : Env) (request : Request) : M response :=
  match method request with
  | POST =>
      match lookup (lit "file") (req_files request) with
      | None => ret (Plain (lit "No file part") 400)
      | Some file =>
          if str_eqb (filename file) [] then ret (Plain (lit "No selected file") 400)
          else if truthy file then
            if endswith (filename file) (lit ".csv") then
              result_csv_path <- process_csv env file ;;
              streams <- visualize_sentiment_trends env result_csv_path ;;
              let '(bar_image_stream, pie_image_stream, word_frequency_image_stream) :=
                streams in
              write_file bar_image_path (FPng bar_image_stream) ;;;
              write_file pie_image_path (FPng pie_image_stream) ;;;
              write_file word_frequency_image_path (FPng word_frequency_image_stream) ;;;
              ret (Template (lit "index.html")
                     (Some (static_url bar_image_path))
                     (Some (static_url pie_image_path))
                     (Some (static_url word_frequency_image_path)))
            else ret (Template (lit "index.html") None None None)
          else ret (Template (lit "index.html") None None None)
      end
  | GET => ret (Template (lit "index.html") None None None)
  end.

(** Lines 143 to 170 of [upload_file]: what the handler does once
    [process_csv] has returned the path of the stored file. *)
Definition render_charts (env : Env) (result_csv_path : str) : M response :=
  streams <- visualize_sentiment_trends env result_csv_path ;;
  let '(bar_image_stream, pie_image_stream, word_frequency_image_stream) := streams in
  write_file bar_image_path (FPng bar_image_stream) ;;;
  write_file pie_image_path (FPng pie_image_stream) ;;;
  write_file word_frequency_image_path (FPng word_frequency_image_stream) ;;;
  ret (Template (lit "index.html")
         (Some (static_url bar_image_path))
         (Some (static_url pie_image_path))
         (Some (static_url word_frequency_image_path))).

(** ** Vocabulary of the properties *)

(** The first fields of the rows that have a field, in row order. *)
Definition first_fields (rows : list (list str)) : list str :=
  flat_map (fun row => match row with text :: _ => [text] | [] => [] end) rows.

Definition has_field (row : list str) : bool :=
  match row with
  | [] => false
  | _ :: _ => true
  end.

(** The rows whose first column is not the empty string. *)
Definition has_text (row : list str) : bool :=
  match row with
  | (_ :: _) :: _ => true
  | _ => false
  end.

(** The texts sent to sentiment detection, in the order of the calls. *)
Definition sentiment_texts (tr : list event) : list str :=
  flat_map (fun ev => match ev with EvDetectSentiment t _ => [t] | _ => [] end) tr.

(** The texts sent to key phrase detection, in the order of the calls. *)
Definition key_phrase_texts (tr : list event) : list str :=
  flat_map (fun ev => match ev with EvDetectKeyPhrases t _ => [t] | _ => [] end) tr.

(** The records the answered sentiment calls stand for. *)
Definition labelled (tr : list event) : list ResultRecord :=
  flat_map
    (fun ev =>
       match ev with
       | EvDetectSentiment t (Ok label) => [{| Review := t; Sentiment := label |}]
       | _ => []
       end) tr.

Definition is_classifier_call (ev : event) : bool :=
  match ev with
  | EvDetectSentiment _ _ | EvDetectKeyPhrases _ _ => true
  | _ => false
  end.

Definition is_upload (ev : event) : bool :=
  match ev with
  | EvUploadFile _ _ _ _ => true
  | _ => false
  end.

Definition is_savefig (ev : event) : bool :=
  match ev with
  | EvSavefig _ => true
  | _ => false
  end.


(** The same process with another object store. *)
Definition with_upload (env : Env) (s3 : list event -> str -> str -> str -> result unit)
  : Env :=
  {| detect_sentiment := detect_sentiment env;
     detect_key_phrases := detect_key_phrases env;
     s3_upload_file := s3;
     gettempdir := gettempdir env;
     bucket_name := bucket_name env;
     infer_column := infer_column env |}.

(** Position of the first occurrence of [w]; the length if there is none. *)
Fixpoint first_index (w : str) (tokens : list str) : nat :=
  match tokens with
  | [] => 0
  | t :: rest => if str_eqb t w then 0 else S (first_index w rest)
  end.

(** [a] comes before [b] in a chart of the words of [tokens]: it is more
    frequent, or as frequent and met first. *)
Definition ranks_before (tokens : list str) (a b : str * nat) : Prop :=
  snd b < snd a
  \/ (snd a = snd b /\ first_index (fst a) tokens < first_index (fst b) tokens).

(** What [Counter] holds for a list of words: the words, each once, in
    the order they are first met, each with its number of occurrences. *)
Definition counted (items : list str) (counts : list (str * nat)) : Prop :=
  (forall w, In w (List.map fst counts) <-> In w items)
  /\ NoDup (List.map fst counts)
  /\ (forall w n, In (w, n) counts -> n = count_occ str_eq_dec items w)
  /\ StronglySorted (fun a b => first_index a items < first_index b items)
                    (List.map fst counts).

Definition index_html : str := lit "index.html".

Definition page_with_charts : response :=
  Template index_html
    (Some (lit "/static/sentiment_bar.png"))
    (Some (lit "/static/sentiment_pie.png"))
    (Some (lit "/static/word_frequency.png")).

Definition bare_page : response := Template index_html None None None.

(** The events of the rows whose analysis was answered in full: for each
    text in turn, the sentiment call and the key phrase call, both with an
    answer. *)
Fixpoint completed (texts : list str) (tr : list event) : Prop :=
  match texts, tr with
  | [], [] => True
  | t :: texts', EvDetectSentiment t1 (Ok _) :: EvDetectKeyPhrases t2 (Ok _) :: tr' =>
      t1 = t /\ t2 = t /\ completed texts' tr'
  | _, _ => False
  end.

(** The events of an analysis of [t] that raised [e]: the sentiment call
    raised, or it was answered and the key phrase call raised. *)
Definition failed_call (t : str) (e : exn) (tail : list event) : Prop :=
  tail = [EvDetectSentiment t (Raise e)]
  \/ exists label,
       tail = [EvDetectSentiment t (Ok label); EvDetectKeyPhrases t (Raise e)].

(** The line [to_csv] writes for the column names and for one record. *)
Definition header_line : list str := [lit "Review"; lit "Sentiment"].

Definition record_line (r : ResultRecord) : list str := [Review r; Sentiment r].

(** The only error the reader can raise on lines without line ends. *)
Definition field_limit_error : exn :=
  CsvError (lit "field larger than field limit (131072)").

(** The text service answered a call of the trace with the exception [e]. *)
Definition answered_with (e : exn) (tr : list event) : Prop :=
  exists text,
    In (EvDetectSentiment text (Raise e)) tr \/ In (EvDetectKeyPhrases text (Raise e)) tr.

Definition is_str (c : Pandas.cell) : bool :=
  match c with
  | Pandas.CStr _ => true
  | _ => false
  end.

(** The fields of a line that has no quote character: the runs between
    the commas; [cur] is the current run, last character first. *)
Fixpoint comma_fields (cur : str) (line : str) : list str :=
  match line with
  | [] => [rev cur]
  | c :: line' =>
      if (c =? Csv.delimiter)%N then rev cur :: comma_fields [] line'
      else comma_fields (c :: cur) line'
  end.

(** The row of such a line: no field for an empty line. *)
Definition plain_row (line : str) : list str :=
  match line with
  | [] => []
  | _ => comma_fields [] line
  end.

(** A character that is neither a quote nor a line end. *)
Definition plain_char (c : codepoint) : bool :=
  negb (c =? Csv.quotechar)%N && negb (Csv.is_newline c).

(** *** Concrete collaborators and requests for the examples *)

Module Demo.

Definition newline : string := String (ascii_of_nat 10) EmptyString.

(** A service that always answers, an object store that always refuses,
    and a reader that turns empty fields into missing values. *)
Definition env : Env := {|
  detect_sentiment := fun _ t =>
    if str_eqb t (lit "bad") then Ok (lit "NEGATIVE") else Ok (lit "POSITIVE");
  detect_key_phrases := fun _ _ => Ok [];
  s3_upload_file := fun _ _ _ _ => Raise (ServiceError (lit "AccessDenied"));
  gettempdir := lit "/tmp";
  bucket_name := lit "cccpbucket1";
  infer_column :=
    List.map (fun s => match s with [] => Pandas.CNaN | _ => Pandas.CStr s end)
|}.

(** The same, with a text service that refuses the text [bad]. *)
Definition strict_env : Env := {|
  detect_sentiment := fun _ t =>
    if str_eqb t (lit "bad") then Raise (ServiceError (lit "Throttling"))
    else Ok (lit "POSITIVE");
  detect_key_phrases := detect_key_phrases env;
  s3_upload_file := s3_upload_file env;
  gettempdir := gettempdir env;
  bucket_name := bucket_name env;
  infer_column := infer_column env
|}.

Definition world : World := {| trace := []; fs := []; stdout := [] |}.

Definition upload (name content : string) : FileStorage :=
  {| filename := lit name; stream := blit content |}.

Definition post (name content : string) : Request :=
  {| method := POST; req_files := [(lit "file", upload name content)] |}.

Definition reviews_csv : string :=
  ("good one" ++ newline ++ "bad" ++ newline ++ newline ++ "good two,x")%string.

(** A stored file with a column [Review] only. *)
Definition no_sentiment_world : World :=
  {| trace := [];
     fs := [(lit "/tmp/r.csv", FCsv [[lit "Review"]; [lit "fine"]])];
     stdout := [] |}.

(** A stored file of two reviews with their labels. *)
Definition stored_world : World :=
  {| trace := [];
     fs := [(lit "/tmp/r.csv",
             FCsv [[lit "Review"; lit "Sentiment"];
                   [lit "a a b"; lit "POSITIVE"];
                   [lit "b c"; lit "NEGATIVE"]])];
     stdout := [] |}.

(** A text service that, like the real client, refuses the empty text
    before any request is made. *)
Definition validating_env : Env := {|
  detect_sentiment := fun _ t =>
    match t with
    | [] => Raise (ServiceError (lit "ParamValidationError"))
    | _ => Ok (lit "POSITIVE")
    end;
  detect_key_phrases := fun _ t =>
    match t with
    | [] => Raise (ServiceError (lit "ParamValidationError"))
    | _ => Ok []
    end;
  s3_upload_file := s3_upload_file env;
  gettempdir := gettempdir env;
  bucket_name := bucket_name env;
  infer_column := infer_column env
|}.

(** Two rows: the first has an empty first column, the second has not. *)
Definition empty_first_column_csv : string := (",x" ++ newline ++ "good")%string.

(** A stored file with a column [Sentiment] only. *)
Definition no_review_world : World :=
  {| trace := [];
     fs := [(lit "/tmp/r.csv", FCsv [[lit "Sentiment"]; [lit "POSITIVE"]])];
     stdout := [] |}.

End Demo.

(** * Properties *)

(** ** The monad *)

Lemma bind_ok {A B : Type} (m : M A) (k : A -> M B) (w w' : World) (a : A) :
  m w = (w', Ok a) -> bind m k w = k a w'.
Proof. intros H. unfold bind. now rewrite H. Qed.

Lemma bind_raise {A B : Type} (m : M A) (k : A -> M B) (w w' : World) (e : exn) :
  m w = (w', Raise e) -> bind m k w = (w', Raise e).
Proof. intros H. unfold bind. now rewrite H. Qed.

Lemma bind_inv {A B : Type} (m : M A) (k : A -> M B) (w w' : World) (r : result B) :
  bind m k w = (w', r) ->
  (exists w1 a, m w = (w1, Ok a) /\ k a w1 = (w', r))
  \/ (exists e, m w = (w', Raise e) /\ r = Raise e).
Proof.
  unfold bind. destruct (m w) as [w1 [a | e]]; intros H.
  - left. now exists w1, a.
  - right. exists e. now inversion H.
Qed.

(** ** Text *)

Lemma str_eqb_eq (a b : str) : str_eqb a b = true <-> a = b.
Proof.
  revert b. induction a as [| x a IH]; intros [| y b]; simpl; split;
    try easy; intros H.
  - apply andb_true_iff in H as [Hx Hab].
    apply N.eqb_eq in Hx. apply IH in Hab. now subst.
  - inversion H; subst. rewrite N.eqb_refl. now apply IH.
Qed.

Lemma str_eqb_refl (a : str) : str_eqb a a = true.
Proof. now apply str_eqb_eq. Qed.

Lemma str_eqb_neq (a b : str) : str_eqb a b = false <-> a <> b.
Proof.
  split.
  - intros H E. apply str_eqb_eq in E. congruence.
  - intros H. destruct (str_eqb a b) eqn:E; [| reflexivity].
    apply str_eqb_eq in E. contradiction.
Qed.

(** ** Decoding *)

Lemma utf8_from_raise (n : nat) :
  forall (bs : bytes) (acc : str) (e : exn),
    List.length bs <= n -> Codec.utf8_from acc bs = Raise e -> e = UnicodeDecodeError.
Proof.
  induction n as [| n IH]; intros bs acc e Hlen H.
  - destruct bs; simpl in *; [discriminate | lia].
  - destruct bs as [| b0 r0]; simpl in H; [discriminate |].
    simpl in Hlen.
    repeat match type of H with
           | (if ?c then _ else _) = _ => destruct c
           | match ?l with [] => _ | _ :: _ => _ end = _ => destruct l; simpl in Hlen
           | Raise _ = Raise _ => now inversion H
           | Codec.utf8_from _ _ = _ => apply IH in H; [exact H | lia]
           end.
Qed.

Lemma decode_utf8_raise (data : bytes) (e : exn) :
  Codec.decode_utf8 data = Raise e -> e = UnicodeDecodeError.
Proof. apply (utf8_from_raise (n := List.length data)). lia. Qed.

(** C7: decoding the upload never raises.  The text is the UTF-8 decoding
    of the whole buffer when that succeeds, and exactly when UTF-8 decoding
    raises its decode error the text is the Latin-1 decoding, which gives
    one character per byte. *)
Theorem decode_upload_total (data : bytes) :
  exists text,
    decode_upload data = Ok text
    /\ (Codec.decode_utf8 data = Ok text
        \/ (Codec.decode_utf8 data = Raise UnicodeDecodeError
            /\ Codec.decode_latin1 data = Ok text
            /\ text = List.map Byte.to_N data)).
Proof.
  unfold decode_upload.
  destruct (Codec.decode_utf8 data) as [text | e] eqn:E.
  - exists text. auto.
  - apply decode_utf8_raise in E as ->.
    exists (List.map Byte.to_N data). split; [reflexivity |].
    right. repeat split.
Qed.

(** A buffer that is not UTF-8: the single byte E9 is the letter e with
    acute accent in Latin-1. *)
Example decode_upload_latin1 :
  Codec.decode_utf8 [xe9] = Raise UnicodeDecodeError
  /\ decode_upload [xe9] = Ok [233%N].
Proof. split; reflexivity. Qed.

(** ** The classifier adapter and the loop over the rows *)

Lemma analyze_ok (env : Env) (text : str) (w w1 : World) (ar : AnalysisResult) :
  analyze_with_comprehend env text w = (w1, Ok ar) ->
  trace w1 = trace w
             ++ [EvDetectSentiment text (Ok (sentiment_response ar));
                 EvDetectKeyPhrases text (Ok (key_phrases_response ar))]
  /\ fs w1 = fs w /\ stdout w1 = stdout w.
Proof.
  unfold analyze_with_comprehend, bind, call_detect_sentiment, call_detect_key_phrases, ret.
  destruct (detect_sentiment env (trace w) text) as [label | e]; [| discriminate].
  simpl.
  destruct (detect_key_phrases env _ text) as [phrases | e]; [| discriminate].
  intros H. inversion H; subst; clear H. simpl.
  rewrite <- app_assoc. auto.
Qed.

Lemma analyze_raise (env : Env) (text : str) (w w1 : World) (e : exn) :
  analyze_with_comprehend env text w = (w1, Raise e) ->
  fs w1 = fs w /\ stdout w1 = stdout w
  /\ (trace w1 = trace w ++ [EvDetectSentiment text (Raise e)]
      \/ exists label,
           trace w1 = trace w ++ [EvDetectSentiment text (Ok label);
                                  EvDetectKeyPhrases text (Raise e)]).
Proof.
  unfold analyze_with_comprehend, bind, call_detect_sentiment, call_detect_key_phrases, ret.
  destruct (detect_sentiment env (trace w) text) as [label | e1].
  - simpl. destruct (detect_key_phrases env _ text) as [phrases | e2]; [discriminate |].
    intros H. inversion H; subst; clear H. simpl.
    repeat split. right. exists label. now rewrite <- app_assoc.
  - intros H. inversion H; subst; clear H. simpl. auto.
Qed.


Lemma for_rows_text (env : Env) (text : str) (more : list str) (rest : list (list str))
      (acc : list ResultRecord) :
  for_rows env ((text :: more) :: rest) acc
  = bind (analyze_with_comprehend env text)
         (fun ar => for_rows env rest
                      (acc ++ [{| Review := text; Sentiment := sentiment_response ar |}])).
Proof. reflexivity. Qed.

Lemma for_rows_app (env : Env) (pre post : list (list str)) :
  forall (acc : list ResultRecord) (w : World),
    for_rows env (pre ++ post) acc w
    = bind (for_rows env pre acc) (fun acc' => for_rows env post acc') w.
Proof.
  induction pre as [| row pre IH]; intros acc w.
  - reflexivity.
  - destruct row as [| text more].
    + simpl. apply IH.
    + simpl app. rewrite !for_rows_text. unfold bind.
      destruct (analyze_with_comprehend env text w) as [w1 [ar | e]].
      * rewrite IH. reflexivity.
      * reflexivity.
Qed.

(** What one run of the loop does: it only talks to the classifier, it
    asks about the first fields in row order, and when it ends normally
    the records are the answered calls. *)
Lemma for_rows_spec (env : Env) (rows : list (list str)) :
  forall (acc : list ResultRecord) (w w' : World) (r : result (list ResultRecord)),
    for_rows env rows acc w = (w', r) ->
    exists new,
      trace w' = trace w ++ new
      /\ fs w' = fs w /\ stdout w' = stdout w
      /\ forallb is_classifier_call new = true
      /\ (exists rest, first_fields rows = sentiment_texts new ++ rest)
      /\ (forall results, r = Ok results ->
            results = acc ++ labelled new
            /\ sentiment_texts new = first_fields rows
            /\ key_phrase_texts new = first_fields rows
            /\ List.map Review (labelled new) = first_fields rows).
Proof.
  induction rows as [| row rows IH]; intros acc w w' r H.
  - simpl in H. unfold ret in H. inversion H; subst; clear H.
    exists []. simpl. rewrite app_nil_r. repeat split; auto.
    + now exists [].
    + inversion H. now rewrite app_nil_r.
  - destruct row as [| text more].
    + simpl in H. apply IH in H. exact H.
    + rewrite for_rows_text in H. apply bind_inv in H as [(w1 & ar & Ha & Hr) | (e & Ha & ->)].
      * apply analyze_ok in Ha as (Ht & Hf & Hs).
        apply IH in Hr as (new & Ht' & Hf' & Hs' & Hc & (rest & Hp) & Hok).
        exists (EvDetectSentiment text (Ok (sentiment_response ar))
                :: EvDetectKeyPhrases text (Ok (key_phrases_response ar)) :: new).
        rewrite Ht', Ht, <- app_assoc. simpl.
        repeat split; try congruence.
        -- exists rest. now rewrite Hp.
        -- apply Hok in H as (-> & _). now rewrite <- app_assoc.
        -- apply Hok in H as (_ & -> & _). reflexivity.
        -- apply Hok in H as (_ & _ & -> & _). reflexivity.
        -- apply Hok in H as (_ & _ & _ & ->). reflexivity.
      * apply analyze_raise in Ha as (Hf & Hs & [Ht | (label & Ht)]).
        -- exists [EvDetectSentiment text (Raise e)].
           rewrite Ht. simpl. repeat split; auto; try discriminate.
           now exists (first_fields rows).
        -- exists [EvDetectSentiment text (Ok label); EvDetectKeyPhrases text (Raise e)].
           rewrite Ht. simpl. repeat split; auto; try discriminate.
           now exists (first_fields rows).
Qed.


Lemma first_fields_length (rows : list (list str)) :
  List.length (first_fields rows) = List.length (filter has_field rows).
Proof.
  induction rows as [| [| text more] rows IH]; simpl; auto.
Qed.

(** The rows section of [process_csv], once the text and the rows are known. *)
Lemma process_csv_results_unfold (env : Env) (file : FileStorage) (text : str)
      (rows : list (list str)) (stop : option exn) (w : World) :
  decode_upload (stream file) = Ok text ->
  Csv.reader_rows (splitlines text) = (rows, stop) ->
  process_csv_results env file w
  = bind (for_rows env rows [])
         (fun results => match stop with Some e => raise e | None => ret results end) w.
Proof.
  intros Hd Hr. unfold process_csv_results.
  unfold bind at 1. unfold lift. rewrite Hd, Hr. reflexivity.
Qed.

Lemma classifier_call_not_upload (new : list event) :
  forallb is_classifier_call new = true ->
  Forall (fun ev => is_upload ev = false /\ is_savefig ev = false) new.
Proof.
  intros H. apply Forall_forall. intros ev Hin.
  rewrite forallb_forall in H. specialize (H ev Hin).
  destruct ev; simpl in *; auto; discriminate.
Qed.




Lemma completed_texts (done : list str) :
  forall calls,
    completed done calls ->
    sentiment_texts calls = done
    /\ key_phrase_texts calls = done
    /\ List.map Review (labelled calls) = done.
Proof.
  induction done as [| t done IH]; intros calls H.
  - destruct calls; [repeat split | destruct H].
  - destruct calls as [| [t1 [l |] | | |] [| [| t2 [p |] | |] calls]]; simpl in H;
      try contradiction.
    destruct H as (-> & -> & H). apply IH in H as (Hs & Hk & Hr).
    simpl. now rewrite Hs, Hk, Hr.
Qed.

(** The trace of one run of the loop: the fully answered analyses of the
    first rows that have a field, in row order, and then either nothing
    more, all rows being done, or the one analysis that raised, for the
    next such row, as the last events. *)
Lemma for_rows_trace (env : Env) (rows : list (list str)) :
  forall (acc : list ResultRecord) (w w' : World) (r : result (list ResultRecord)),
    for_rows env rows acc w = (w', r) ->
    exists done rest calls tail,
      first_fields rows = done ++ rest
      /\ trace w' = trace w ++ calls ++ tail
      /\ completed done calls
      /\ match r with
         | Ok results => rest = [] /\ tail = [] /\ results = acc ++ labelled calls
         | Raise e => exists t rest', rest = t :: rest' /\ failed_call t e tail
         end.
Proof.
  induction rows as [| row rows IH]; intros acc w w' r H.
  - simpl in H. unfold ret in H. inversion H; subst; clear H.
    exists [], [], [], []. simpl. rewrite !app_nil_r. repeat split; reflexivity.
  - destruct row as [| text more].
    + simpl in H. apply IH in H. exact H.
    + rewrite for_rows_text in H.
      apply bind_inv in H as [(w1 & ar & Ha & Hr) | (e & Ha & ->)].
      * apply analyze_ok in Ha as (Ht & _ & _).
        apply IH in Hr as (done & rest & calls & tail & Hf & Ht' & Hc & Hres).
        exists (text :: done), rest,
          (EvDetectSentiment text (Ok (sentiment_response ar))
             :: EvDetectKeyPhrases text (Ok (key_phrases_response ar)) :: calls), tail.
        split; [simpl; now rewrite Hf |].
        split; [rewrite Ht', Ht, <- app_assoc; reflexivity |].
        split; [simpl; auto |].
        destruct r as [results | e]; [| exact Hres].
        destruct Hres as (-> & -> & ->). repeat split. simpl.
        now rewrite <- app_assoc.
      * apply analyze_raise in Ha as (_ & _ & Ht).
        exists [], (text :: first_fields rows), [].
        destruct Ht as [Ht | (label & Ht)].
        -- exists [EvDetectSentiment text (Raise e)].
           repeat split; auto. exists text, (first_fields rows). split; [reflexivity |].
           now left.
        -- exists [EvDetectSentiment text (Ok label); EvDetectKeyPhrases text (Raise e)].
           repeat split; auto. exists text, (first_fields rows). split; [reflexivity |].
           right. now exists label.
Qed.

(** C8, as the code has it: the classifier is called once for every row
    that has at least one field, with field 0 as text even when it is the
    empty string, in row order, and for no row without fields.  The events
    of a run are the fully answered analyses of the first such rows, each
    once and in order, followed either by nothing, all rows being done, or
    by the one analysis that raised, for the next such row: the calls stop
    at the first one that raises, and no later row is classified.  When
    the run ends normally every such row has its call and its record. *)
Theorem classifier_called_per_row_with_field
        (env : Env) (file : FileStorage) (w w' : World) (text : str)
        (rows : list (list str)) (stop : option exn) (r : result (list ResultRecord)) :
  decode_upload (stream file) = Ok text ->
  Csv.reader_rows (splitlines text) = (rows, stop) ->
  process_csv_results env file w = (w', r) ->
  exists new done rest calls tail,
    trace w' = trace w ++ new
    /\ new = calls ++ tail
    /\ first_fields rows = done ++ rest
    /\ completed done calls
    /\ sentiment_texts calls = done
    /\ ((rest = [] /\ tail = []
         /\ ((stop = None /\ r = Ok (labelled calls))
             \/ exists e, stop = Some e /\ r = Raise e))
        \/ (exists t rest' e,
              rest = t :: rest' /\ failed_call t e tail /\ r = Raise e))
    /\ (exists rest0, first_fields rows = sentiment_texts new ++ rest0)
    /\ (forall results, r = Ok results ->
          sentiment_texts new = first_fields rows
          /\ key_phrase_texts new = first_fields rows
          /\ results = labelled new
          /\ List.length results = List.length (filter has_field rows)).
Proof.
  intros Hd Hr H.
  rewrite (process_csv_results_unfold env file w Hd Hr) in H.
  apply bind_inv in H as [(w1 & res & Hloop & Hret) | (e & Hloop & ->)].
  - apply for_rows_trace in Hloop
      as (done & rest & calls & tail & Hf & Ht & Hc & -> & -> & Hres).
    simpl in Hres. rewrite app_nil_r in Hf, Ht.
    destruct (completed_texts done calls Hc) as (Hs & Hk & Hrev).
    assert (w' = w1) as ->.
    { destruct stop; unfold raise, ret in Hret; now inversion Hret. }
    exists calls, done, [], calls, [].
    rewrite !app_nil_r.
    split; [exact Ht |]. split; [reflexivity |]. split; [exact Hf |].
    split; [exact Hc |]. split; [exact Hs |].
    split; [| split].
    + left. split; [reflexivity |]. split; [reflexivity |].
      destruct stop as [e |]; unfold raise, ret in Hret; inversion Hret; subst.
      * right. now exists e.
      * left. auto.
    + exists []. now rewrite app_nil_r, Hs.
    + intros results Hresults. subst r.
      assert (Hsame : results = labelled calls)
        by (destruct stop; unfold raise, ret in Hret; inversion Hret; congruence).
      split; [congruence |]. split; [congruence |]. split; [exact Hsame |].
      rewrite <- first_fields_length, Hf, <- Hrev, Hsame. now rewrite length_map.
  - apply for_rows_trace in Hloop
      as (done & rest & calls & tail & Hf & Ht & Hc & t & rest' & -> & Hfail).
    destruct (completed_texts done calls Hc) as (Hs & _).
    exists (calls ++ tail), done, (t :: rest'), calls, tail.
    split; [exact Ht |]. split; [reflexivity |]. split; [exact Hf |].
    split; [exact Hc |]. split; [exact Hs |].
    split; [| split].
    + right. now exists t, rest', e.
    + exists rest'. unfold sentiment_texts. rewrite flat_map_app.
      fold (sentiment_texts calls). rewrite Hs, Hf, <- app_assoc.
      destruct Hfail as [-> | (label & ->)]; reflexivity.
    + discriminate.
Qed.

Lemma classifier_called_per_row_with_field_witness :
  exists calls tail,
    trace (fst (process_csv_results Demo.validating_env
                  (Demo.upload "a.csv" Demo.empty_first_column_csv) Demo.world))
    = calls ++ tail
    /\ completed [] calls
    /\ failed_call [] (ServiceError (lit "ParamValidationError")) tail.
Proof.
  edestruct (@classifier_called_per_row_with_field
               Demo.validating_env (Demo.upload "a.csv" Demo.empty_first_column_csv)
               Demo.world)
    as (new & done & rest & calls & tail & Htrace & Hnew & Hrows & Hdone & Htexts & Hend & _).
  - vm_compute. reflexivity.
  - vm_compute. reflexivity.
  - apply surjective_pairing.
  - exists calls, tail. rewrite Htrace, Hnew. split; [reflexivity |].
    destruct Hend as [(_ & _ & [(_ & Hok) | (e & Hstop & _)])
                     | (t & rest' & e & Hrest & Hfail & Hraise)].
    + vm_compute in Hok. discriminate Hok.
    + discriminate Hstop.
    + vm_compute in Hraise. inversion Hraise; subst e.
      destruct done as [| d done].
      * rewrite Hrest in Hrows. vm_compute in Hrows.
        inversion Hrows as [[Ht Hrest']]. subst t.
        split; [exact Hdone | exact Hfail].
      * exfalso. subst new.
        assert (Hhead : exists ev evs, calls ++ tail = ev :: evs
                                       /\ exists t1 l, ev = EvDetectSentiment t1 (Ok l)).
        { destruct calls as [| ev calls']; [simpl in Hdone; contradiction |].
          destruct ev as [t1 [l | e1] | | |]; simpl in Hdone; try contradiction.
          exists (EvDetectSentiment t1 (Ok l)), (calls' ++ tail).
          split; [reflexivity | eauto]. }
        destruct Hhead as (ev & evs & Heq & t1 & l & ->).
        rewrite Heq in Htrace. vm_compute in Htrace. inversion Htrace.
Defined.

(** C8 as the specification states it fails: the first row of the upload
    has an empty first column and the second has not.  The specification
    has the classifier called for the second row only.  The code calls it
    for the first row, with the empty text; the service refuses that text
    as the real client does, the exception ends the run, and the second
    row is never classified. *)
Lemma classifier_called_on_empty_first_column :
  let rows := [[ []; lit "x" ]; [lit "good"]] in
  let run := process_csv_results Demo.validating_env
               (Demo.upload "a.csv" Demo.empty_first_column_csv) Demo.world in
  Csv.reader_rows (splitlines (lit Demo.empty_first_column_csv)) = (rows, None)
  /\ first_fields (filter has_text rows) = [lit "good"]
  /\ sentiment_texts (trace (fst run)) = [ [] ]
  /\ snd run = Raise (ServiceError (lit "ParamValidationError"))
  /\ sentiment_texts (trace (fst run)) <> first_fields (filter has_text rows).
Proof.
  vm_compute. repeat split. discriminate.
Qed.

(** ** The request handler on a CSV upload *)

Lemma endswith_nonempty (s suffix : str) :
  suffix <> [] -> endswith s suffix = true -> str_eqb s [] = false.
Proof.
  intros Hs H. destruct s as [| c s]; [| reflexivity].
  unfold endswith in H. apply andb_true_iff in H as [_ H].
  destruct suffix; [contradiction | discriminate].
Qed.

Lemma upload_file_csv (env : Env) (request : Request) (file : FileStorage) :
  method request = POST ->
  lookup (lit "file") (req_files request) = Some file ->
  endswith (filename file) (lit ".csv") = true ->
  upload_file env request = bind (process_csv env file) (render_charts env).
Proof.
  intros Hm Hl Hc. unfold upload_file, truthy.
  rewrite Hm, Hl, Hc, (endswith_nonempty (filename file) (suffix := lit ".csv")); auto.
  discriminate.
Qed.

(** C5: when the classifier raises for a row, [process_csv] raises the
    same exception and so does the handler; nothing was written to the
    file system or printed, and the only calls made were calls of the
    classifier, so the result file does not exist and no upload was tried. *)
Theorem classifier_failure_aborts_request
        (env : Env) (request : Request) (file : FileStorage) (w w1 w2 : World)
        (text row_text : str) (more : list str) (pre post : list (list str))
        (stop : option exn) (acc : list ResultRecord) (e : exn) :
  method request = POST ->
  lookup (lit "file") (req_files request) = Some file ->
  endswith (filename file) (lit ".csv") = true ->
  decode_upload (stream file) = Ok text ->
  Csv.reader_rows (splitlines text) = (pre ++ (row_text :: more) :: post, stop) ->
  for_rows env pre [] w = (w1, Ok acc) ->
  analyze_with_comprehend env row_text w1 = (w2, Raise e) ->
  process_csv env file w = (w2, Raise e)
  /\ upload_file env request w = (w2, Raise e)
  /\ fs w2 = fs w
  /\ stdout w2 = stdout w
  /\ exists new,
       trace w2 = trace w ++ new
       /\ Forall (fun ev => is_upload ev = false /\ is_savefig ev = false) new.
Proof.
  intros Hm Hl Hc Hd Hr Hpre Hrow.
  assert (Hres : process_csv_results env file w = (w2, Raise e)).
  { rewrite (process_csv_results_unfold env file w Hd Hr).
    apply bind_raise. rewrite for_rows_app.
    erewrite bind_ok by exact Hpre.
    rewrite for_rows_text. now apply bind_raise. }
  assert (Hcsv : process_csv env file w = (w2, Raise e)).
  { unfold process_csv. now apply bind_raise. }
  split; [exact Hcsv |]. split.
  { rewrite (upload_file_csv env request Hm Hl Hc). now apply bind_raise. }
  apply for_rows_spec in Hpre as (new & Ht & Hf & Hs & Hcalls & _).
  apply analyze_raise in Hrow as (Hf2 & Hs2 & Ht2).
  repeat split; try congruence.
  destruct Ht2 as [Ht2 | (label & Ht2)].
  - exists (new ++ [EvDetectSentiment row_text (Raise e)]).
    rewrite Ht2, Ht, <- app_assoc. split; [reflexivity |].
    apply classifier_call_not_upload. rewrite forallb_app, Hcalls. reflexivity.
  - exists (new ++ [EvDetectSentiment row_text (Ok label);
                    EvDetectKeyPhrases row_text (Raise e)]).
    rewrite Ht2, Ht, <- app_assoc. split; [reflexivity |].
    apply classifier_call_not_upload. rewrite forallb_app, Hcalls. reflexivity.
Qed.

Lemma classifier_failure_aborts_request_witness :
  snd (upload_file Demo.strict_env (Demo.post "a.csv" Demo.reviews_csv) Demo.world)
  = Raise (ServiceError (lit "Throttling"))
  /\ fs (fst (upload_file Demo.strict_env (Demo.post "a.csv" Demo.reviews_csv) Demo.world))
     = [].
Proof.
  edestruct (@classifier_failure_aborts_request
               Demo.strict_env (Demo.post "a.csv" Demo.reviews_csv)
               (Demo.upload "a.csv" Demo.reviews_csv) Demo.world)
    as (_ & Hhandler & Hfs & _).
  - reflexivity.
  - reflexivity.
  - reflexivity.
  - vm_compute. reflexivity.
  - instantiate (1 := None). instantiate (1 := [[]; [lit "good two"; lit "x"]]).
    instantiate (1 := []). instantiate (1 := lit "bad").
    instantiate (1 := [[lit "good one"]]).
    vm_compute. reflexivity.
  - vm_compute. reflexivity.
  - vm_compute. reflexivity.
  - rewrite Hhandler. split; [reflexivity | exact Hfs].
Defined.

(** ** Persisting the results *)

Lemma lookup_head {A : Type} (k : str) (v : A) (l : list (str * A)) :
  lookup k ((k, v) :: l) = Some v.
Proof. unfold lookup. simpl. now rewrite str_eqb_refl. Qed.

(** The upload helper never raises: it reports the outcome as a boolean
    and prints one line. *)
Lemma upload_local_file_to_s3_spec (env : Env) (path bucket key : str) (w : World) :
  let answer := s3_upload_file env (trace w) path bucket key in
  upload_local_file_to_s3 env path bucket key w
  = ({| trace := trace w ++ [EvUploadFile path bucket key answer];
        fs := fs w;
        stdout := stdout w
                  ++ [match answer with
                      | Ok _ => lit "Local file " ++ path ++ lit " uploaded to " ++ bucket
                                ++ lit " as " ++ key
                      | Raise e => lit "Error uploading local file: " ++ exn_str e
                      end] |},
     Ok match answer with Ok _ => true | Raise _ => false end).
Proof.
  unfold upload_local_file_to_s3, try_except, bind, call_upload_file, print, ret, log.
  simpl. destruct (s3_upload_file env (trace w) path bucket key); reflexivity.
Qed.

Lemma process_csv_after_results (env : Env) (file : FileStorage) (w w1 : World)
      (results : list ResultRecord) :
  process_csv_results env file w = (w1, Ok results) ->
  let path := csv_file_path env in
  let answer := s3_upload_file env (trace w1) path (bucket_name env) (os_path_basename path) in
  process_csv env file w
  = ({| trace := trace w1
                 ++ [EvUploadFile path (bucket_name env) (os_path_basename path) answer];
        fs := (path, FCsv (Pandas.to_csv (Pandas.of_records (List.map record_dict results))))
              :: fs w1;
        stdout := stdout w1
                  ++ [match answer with
                      | Ok _ => lit "Local file " ++ path ++ lit " uploaded to "
                                ++ bucket_name env ++ lit " as " ++ os_path_basename path
                      | Raise e => lit "Error uploading local file: " ++ exn_str e
                      end] |},
     Ok path).
Proof.
  intros H path answer. unfold process_csv.
  erewrite bind_ok by exact H.
  unfold bind at 1. unfold write_file at 1.
  unfold bind. rewrite upload_local_file_to_s3_spec. reflexivity.
Qed.

Lemma process_csv_inv (env : Env) (file : FileStorage) (w w' : World) (r : result str) :
  process_csv env file w = (w', r) ->
  (exists e, r = Raise e /\ process_csv_results env file w = (w', Raise e))
  \/ (exists w1 results,
         process_csv_results env file w = (w1, Ok results) /\ r = Ok (csv_file_path env)).
Proof.
  intros H.
  destruct (process_csv_results env file w) as [w1 [results | e]] eqn:E.
  - right. exists w1, results. split; [reflexivity |].
    rewrite (process_csv_after_results env file w E) in H. now inversion H.
  - left. exists e. unfold process_csv in H.
    erewrite bind_raise in H by exact E. now inversion H.
Qed.

(** The rows section of [process_csv] on an upload without bytes. *)
Lemma process_csv_results_empty (env : Env) (name : str) (w : World) :
  process_csv_results env {| filename := name; stream := [] |} w = (w, Ok []).
Proof. reflexivity. Qed.

(** C3 on the code: for an empty upload the list of results is empty, and
    the file [process_csv] stores for it has one line without any field,
    not the header line of the two column names. *)
Theorem empty_upload_stores_no_header (env : Env) (name : str) (w : World) :
  process_csv_results env {| filename := name; stream := [] |} w = (w, Ok [])
  /\ exists w',
       process_csv env {| filename := name; stream := [] |} w
       = (w', Ok (csv_file_path env))
       /\ lookup (csv_file_path env) (fs w') = Some (FCsv [[]])
       /\ FCsv [[]] <> FCsv [[lit "Review"; lit "Sentiment"]].
Proof.
  split; [reflexivity |].
  eexists. split.
  - apply (process_csv_after_results env _ w (process_csv_results_empty env name w)).
  - simpl fs. rewrite lookup_head. split; [reflexivity | discriminate].
Qed.

(** ** Reading the stored file back *)

Lemma mem_In (k : str) (ks : list str) : Pandas.mem k ks = true <-> In k ks.
Proof.
  unfold Pandas.mem. rewrite existsb_exists. split.
  - intros (x & Hin & Heq). apply str_eqb_eq in Heq. now subst.
  - intros Hin. exists k. split; [exact Hin | apply str_eqb_refl].
Qed.

(** C6: when the stored file loads but has no column [Sentiment], the
    visualization raises the validation error and leaves the world as it
    was, so no chart has been drawn. *)
Theorem missing_sentiment_column_raises
        (env : Env) (path : str) (w : World) (records : list (list str))
        (df : Pandas.DataFrame) :
  lookup path (fs w) = Some (FCsv records) ->
  Pandas.read_csv (infer_column env) records = Ok df ->
  ~ In (lit "Sentiment") (Pandas.columns df) ->
  visualize_sentiment_trends env path w
  = (w, Raise (ValueError (lit "CSV must contain 'Sentiment' column."))).
Proof.
  intros Hfile Hread Hcol.
  unfold visualize_sentiment_trends, pd_read_csv, read_file, bind, lift.
  rewrite Hfile, Hread.
  destruct (Pandas.mem (lit "Sentiment") (Pandas.columns df)) eqn:E.
  - apply mem_In in E. contradiction.
  - reflexivity.
Qed.

Lemma missing_sentiment_column_raises_witness :
  visualize_sentiment_trends Demo.env (lit "/tmp/r.csv") Demo.no_sentiment_world
  = (Demo.no_sentiment_world,
     Raise (ValueError (lit "CSV must contain 'Sentiment' column."))).
Proof.
  eapply (@missing_sentiment_column_raises Demo.env (lit "/tmp/r.csv")
            Demo.no_sentiment_world).
  - vm_compute. reflexivity.
  - vm_compute. reflexivity.
  - vm_compute. intros [H | []]. discriminate H.
Defined.

(** C10: when the list of results is empty, the stored file is one line
    without any field, so it has no header; reading it back raises the
    error of a file without columns, before the check for the column
    [Sentiment] and before any chart, and the handler ends with that
    exception. *)
Theorem empty_results_abort_request
        (env : Env) (request : Request) (file : FileStorage) (w w1 : World) :
  method request = POST ->
  lookup (lit "file") (req_files request) = Some file ->
  endswith (filename file) (lit ".csv") = true ->
  process_csv_results env file w = (w1, Ok []) ->
  exists w2,
    process_csv env file w = (w2, Ok (csv_file_path env))
    /\ lookup (csv_file_path env) (fs w2) = Some (FCsv [[]])
    /\ visualize_sentiment_trends env (csv_file_path env) w2
       = (w2, Raise (EmptyDataError (lit "No columns to parse from file")))
    /\ upload_file env request w
       = (w2, Raise (EmptyDataError (lit "No columns to parse from file"))).
Proof.
  intros Hm Hl Hc Hres.
  pose proof (process_csv_after_results env file w Hres) as Hcsv.
  simpl in Hcsv.
  eexists. split; [exact Hcsv |].
  assert (Hlook : forall tr out,
             lookup (csv_file_path env)
                    (fs {| trace := tr;
                           fs := (csv_file_path env, FCsv [[]]) :: fs w1;
                           stdout := out |})
             = Some (FCsv [[]])).
  { intros. simpl. apply lookup_head. }
  split; [apply Hlook |].
  assert (Hviz : forall w2,
             lookup (csv_file_path env) (fs w2) = Some (FCsv [[]]) ->
             visualize_sentiment_trends env (csv_file_path env) w2
             = (w2, Raise (EmptyDataError (lit "No columns to parse from file")))).
  { intros w2 H. unfold visualize_sentiment_trends, pd_read_csv, read_file, bind, lift.
    rewrite H. reflexivity. }
  split; [apply Hviz, Hlook |].
  rewrite (upload_file_csv env request Hm Hl Hc).
  erewrite bind_ok by exact Hcsv.
  apply bind_raise. apply Hviz, Hlook.
Qed.

Lemma empty_results_abort_request_witness :
  snd (upload_file Demo.env (Demo.post "a.csv" "") Demo.world)
  = Raise (EmptyDataError (lit "No columns to parse from file")).
Proof.
  edestruct (@empty_results_abort_request
               Demo.env (Demo.post "a.csv" "") (Demo.upload "a.csv" "") Demo.world)
    as (w2 & _ & _ & _ & Hhandler).
  - reflexivity.
  - reflexivity.
  - reflexivity.
  - reflexivity.
  - rewrite Hhandler. reflexivity.
Defined.

(** ** The request handler *)

Lemma render_charts_inv (env : Env) (path : str) (w w' : World) (r : result response) :
  render_charts env path w = (w', r) ->
  (exists e, r = Raise e /\ visualize_sentiment_trends env path w = (w', Raise e))
  \/ (exists w2 bar pie words,
         visualize_sentiment_trends env path w = (w2, Ok (bar, pie, words))
         /\ r = Ok page_with_charts
         /\ w' = {| trace := trace w2;
                    fs := (word_frequency_image_path, FPng words)
                          :: (pie_image_path, FPng pie)
                          :: (bar_image_path, FPng bar) :: fs w2;
                    stdout := stdout w2 |}).
Proof.
  unfold render_charts. intros H.
  apply bind_inv in H as [(w2 & [[bar pie] words] & Hviz & Hrest) | (e & Hviz & ->)].
  - right. exists w2, bar, pie, words. split; [exact Hviz |].
    unfold bind, write_file, ret in Hrest. simpl in Hrest.
    inversion Hrest; subst. split; reflexivity.
  - left. now exists e.
Qed.

(** C9: a POST without the field [file] is answered 400 [No file part];
    with an empty file name 400 [No selected file]; with a file name that
    does not end in [.csv] the bare form page, the world untouched; with a
    file name that ends in [.csv] the handler runs [process_csv], then the
    visualization, then writes the three images, and what it returns is the
    form page with the three image URLs, unless one of the two steps
    raised, in which case the handler raises the same exception. *)
Theorem upload_file_dispatch (env : Env) (request : Request) (w : World) :
  method request = POST ->
  (lookup (lit "file") (req_files request) = None ->
   upload_file env request w = (w, Ok (Plain (lit "No file part") 400)))
  /\ (forall file,
        lookup (lit "file") (req_files request) = Some file ->
        filename file = [] ->
        upload_file env request w = (w, Ok (Plain (lit "No selected file") 400)))
  /\ (forall file,
        lookup (lit "file") (req_files request) = Some file ->
        filename file <> [] ->
        endswith (filename file) (lit ".csv") = false ->
        upload_file env request w = (w, Ok bare_page))
  /\ (forall file,
        lookup (lit "file") (req_files request) = Some file ->
        endswith (filename file) (lit ".csv") = true ->
        forall w' r,
          upload_file env request w = (w', r) ->
          (exists e,
              r = Raise e
              /\ (process_csv env file w = (w', Raise e)
                  \/ exists w1,
                       process_csv env file w = (w1, Ok (csv_file_path env))
                       /\ visualize_sentiment_trends env (csv_file_path env) w1
                          = (w', Raise e)))
          \/ (r = Ok page_with_charts
              /\ exists w1 w2 bar pie words,
                   process_csv env file w = (w1, Ok (csv_file_path env))
                   /\ visualize_sentiment_trends env (csv_file_path env) w1
                      = (w2, Ok (bar, pie, words))
                   /\ w' = {| trace := trace w2;
                              fs := (word_frequency_image_path, FPng words)
                                    :: (pie_image_path, FPng pie)
                                    :: (bar_image_path, FPng bar) :: fs w2;
                              stdout := stdout w2 |})).
Proof.
  intros Hm. repeat split.
  - intros Hl. unfold upload_file. now rewrite Hm, Hl.
  - intros file Hl Hname. unfold upload_file. now rewrite Hm, Hl, Hname.
  - intros file Hl Hname Hcsv. unfold upload_file, truthy.
    apply str_eqb_neq in Hname. now rewrite Hm, Hl, Hname, Hcsv.
  - intros file Hl Hcsv w' r H.
    rewrite (upload_file_csv env request Hm Hl Hcsv) in H.
    apply bind_inv in H as [(w1 & path & Hp & Hrender) | (e & Hp & ->)].
    + destruct (process_csv_inv env file w Hp) as [(e & He & _) | (w0 & results & _ & Hpath)];
        [discriminate |].
      inversion Hpath; subst path.
      apply render_charts_inv in Hrender
        as [(e & -> & Hviz) | (w2 & bar & pie & words & Hviz & -> & ->)].
      * left. exists e. split; [reflexivity |]. right. now exists w1.
      * right. split; [reflexivity |]. now exists w1, w2, bar, pie, words.
    + left. exists e. auto.
Qed.

Lemma upload_file_dispatch_witness :
  upload_file Demo.env (Demo.post "notes.txt" "good") Demo.world
  = (Demo.world, Ok bare_page)
  /\ snd (upload_file Demo.env (Demo.post "a.csv" Demo.reviews_csv) Demo.world)
     = Ok page_with_charts.
Proof.
  split.
  - destruct (@upload_file_dispatch Demo.env (Demo.post "notes.txt" "good") Demo.world
                eq_refl) as (_ & _ & Hother & _).
    apply (Hother (Demo.upload "notes.txt" "good")).
    + reflexivity.
    + discriminate.
    + reflexivity.
  - destruct (@upload_file_dispatch Demo.env (Demo.post "a.csv" Demo.reviews_csv)
                Demo.world eq_refl) as (_ & _ & _ & Hcsv).
    destruct (Hcsv (Demo.upload "a.csv" Demo.reviews_csv) eq_refl eq_refl _ _
                   (surjective_pairing _))
      as [(e & Hraise & _) | (Hpage & _)].
    + vm_compute in Hraise. discriminate Hraise.
    + exact Hpage.
Defined.

(** ** The object store does not decide the outcome *)

Lemma for_rows_with_upload (env : Env) (s3 : list event -> str -> str -> str -> result unit)
      (rows : list (list str)) :
  forall (acc : list ResultRecord) (w : World),
    for_rows (with_upload env s3) rows acc w = for_rows env rows acc w.
Proof.
  induction rows as [| row rows IH]; intros acc w; [reflexivity |].
  destruct row as [| text more].
  - simpl. apply IH.
  - rewrite !for_rows_text. unfold bind.
    change (analyze_with_comprehend (with_upload env s3) text w)
      with (analyze_with_comprehend env text w).
    destruct (analyze_with_comprehend env text w) as [w1 [ar | e]]; [apply IH | reflexivity].
Qed.

Lemma process_csv_results_with_upload
      (env : Env) (s3 : list event -> str -> str -> str -> result unit)
      (file : FileStorage) (w : World) :
  process_csv_results (with_upload env s3) file w = process_csv_results env file w.
Proof.
  unfold process_csv_results, bind, lift.
  destruct (decode_upload (stream file)) as [text | e]; [| reflexivity].
  destruct (Csv.reader_rows (splitlines text)) as [rows stop].
  now rewrite for_rows_with_upload.
Qed.

(** The charts and the answer depend on the stored files only, not on the
    trace, on what was printed or on the object store. *)
Lemma render_charts_files_only
      (env : Env) (s3 : list event -> str -> str -> str -> result unit)
      (path : str) (w w' : World) :
  fs w = fs w' ->
  snd (render_charts env path w) = snd (render_charts (with_upload env s3) path w')
  /\ fs (fst (render_charts env path w))
     = fs (fst (render_charts (with_upload env s3) path w')).
Proof.
  intros Hfs.
  unfold render_charts, visualize_sentiment_trends, pd_read_csv, read_file, bind, lift,
    raise, savefig, write_file, ret, log.
  simpl infer_column. rewrite Hfs.
  destruct (lookup path (fs w')) as [[records | img] |]; simpl; auto.
  destruct (Pandas.read_csv (infer_column env) records) as [df | e]; simpl; auto.
  destruct (negb (Pandas.mem (lit "Sentiment") (Pandas.columns df))); simpl; auto.
  destruct (Pandas.column df (lit "Sentiment")) as [sentiment | e]; simpl; auto.
  destruct (Pandas.column df (lit "Review")) as [review | e]; simpl; auto.
  destruct (str_items review) as [reviews | e]; simpl; auto.
  rewrite Hfs. auto.
Qed.

(** C4: when the upload of the stored file raises, the helper catches the
    exception and prints it, [process_csv] still returns the local path
    with the file in place, the handler goes on to draw the charts from
    that file, and its answer and the files it leaves are those of the
    same request with an object store that accepts the upload. *)
Theorem upload_failure_is_not_fatal
        (env : Env) (request : Request) (file : FileStorage) (w w1 : World)
        (results : list ResultRecord) (e : exn) :
  method request = POST ->
  lookup (lit "file") (req_files request) = Some file ->
  endswith (filename file) (lit ".csv") = true ->
  process_csv_results env file w = (w1, Ok results) ->
  s3_upload_file env (trace w1) (csv_file_path env) (bucket_name env)
                 (os_path_basename (csv_file_path env)) = Raise e ->
  exists w2,
    process_csv env file w = (w2, Ok (csv_file_path env))
    /\ trace w2 = trace w1
                  ++ [EvUploadFile (csv_file_path env) (bucket_name env)
                                   (os_path_basename (csv_file_path env)) (Raise e)]
    /\ stdout w2 = stdout w1 ++ [lit "Error uploading local file: " ++ exn_str e]
    /\ lookup (csv_file_path env) (fs w2)
       = Some (FCsv (Pandas.to_csv (Pandas.of_records (List.map record_dict results))))
    /\ upload_file env request w = render_charts env (csv_file_path env) w2
    /\ (let accepting := with_upload env (fun _ _ _ _ => Ok tt) in
        snd (upload_file env request w) = snd (upload_file accepting request w)
        /\ fs (fst (upload_file env request w))
           = fs (fst (upload_file accepting request w))).
Proof.
  intros Hm Hl Hc Hres Hs3.
  pose proof (process_csv_after_results env file w Hres) as Hcsv.
  simpl in Hcsv. rewrite Hs3 in Hcsv.
  pose proof (process_csv_after_results (with_upload env (fun _ _ _ _ => Ok tt)) file w)
    as Hcsv'.
  rewrite process_csv_results_with_upload in Hcsv'.
  specialize (Hcsv' _ _ Hres). simpl in Hcsv'.
  assert (Hsame :
            snd (upload_file env request w)
            = snd (upload_file (with_upload env (fun _ _ _ _ => Ok tt)) request w)
            /\ fs (fst (upload_file env request w))
               = fs (fst (upload_file (with_upload env (fun _ _ _ _ => Ok tt)) request w))).
  { rewrite (upload_file_csv env request Hm Hl Hc).
    rewrite (upload_file_csv (with_upload env (fun _ _ _ _ => Ok tt)) request Hm Hl Hc).
    unfold bind. rewrite Hcsv, Hcsv'.
    apply render_charts_files_only. reflexivity. }
  eexists. split; [exact Hcsv |]. simpl.
  repeat split; try apply Hsame.
  - apply lookup_head.
  - rewrite (upload_file_csv env request Hm Hl Hc).
    unfold bind. rewrite Hcsv. reflexivity.
Qed.

Lemma upload_failure_is_not_fatal_witness :
  snd (upload_file Demo.env (Demo.post "a.csv" Demo.reviews_csv) Demo.world)
  = snd (upload_file (with_upload Demo.env (fun _ _ _ _ => Ok tt))
                     (Demo.post "a.csv" Demo.reviews_csv) Demo.world)
  /\ stdout (fst (process_csv Demo.env (Demo.upload "a.csv" Demo.reviews_csv) Demo.world))
     = [lit "Error uploading local file: AccessDenied"].
Proof.
  edestruct (@upload_failure_is_not_fatal
               Demo.env (Demo.post "a.csv" Demo.reviews_csv)
               (Demo.upload "a.csv" Demo.reviews_csv) Demo.world)
    as (w2 & Hcsv & _ & Hout & _ & _ & Hsame & _).
  - reflexivity.
  - reflexivity.
  - reflexivity.
  - vm_compute. reflexivity.
  - reflexivity.
  - split; [exact Hsame |]. rewrite Hcsv. simpl fst. rewrite Hout. reflexivity.
Defined.

(** ** Words: joining and splitting *)

Lemma split_from_space (a b : str) (c : codepoint) :
  isspace c = true ->
  forall cur, split_from cur (a ++ c :: b) = split_from cur a ++ split_from [] b.
Proof.
  intros Hc. induction a as [| x a IH]; intros cur; simpl.
  - now rewrite Hc.
  - destruct (isspace x).
    + now rewrite IH, app_assoc.
    + apply IH.
Qed.

(** Joining with one space and splitting gives the words of each review,
    review after review: no word spans two reviews. *)
Lemma split_join (reviews : list str) :
  split (join (lit " ") reviews) = concat (List.map split reviews).
Proof.
  induction reviews as [| r rest IH]; [reflexivity |].
  destruct rest as [| r' rest].
  - simpl. now rewrite app_nil_r.
  - change (join (lit " ") (r :: r' :: rest))
      with (r ++ 32%N :: join (lit " ") (r' :: rest)).
    unfold split at 1. rewrite split_from_space by reflexivity.
    fold (split r). fold (split (join (lit " ") (r' :: rest))).
    now rewrite IH.
Qed.

(** ** Counting words *)

Lemma Counter_snoc (items : list str) (x : str) :
  Counter str_eqb (items ++ [x]) = bump str_eqb x (Counter str_eqb items).
Proof. unfold Counter. now rewrite fold_left_app. Qed.

(** [bump] either adds one to the entry of [x], in place, or appends a
    first entry for [x]. *)
Lemma bump_cases (x : str) (counts : list (str * nat)) :
  (exists before n after,
      counts = before ++ (x, n) :: after
      /\ bump str_eqb x counts = before ++ (x, S n) :: after)
  \/ (~ In x (List.map fst counts) /\ bump str_eqb x counts = counts ++ [(x, 1)]).
Proof.
  induction counts as [| [y n] counts IH]; simpl.
  - right. auto.
  - destruct (str_eqb y x) eqn:E.
    + apply str_eqb_eq in E as ->. left. now exists [], n, counts.
    + apply str_eqb_neq in E.
      destruct IH as [(before & m & after & -> & ->) | (Hnot & ->)].
      * left. now exists ((y, n) :: before), m, after.
      * right. split; [| reflexivity]. intros [H | H]; auto.
Qed.

Lemma first_index_app_in (w : str) (items more : list str) :
  In w items -> first_index w (items ++ more) = first_index w items.
Proof.
  induction items as [| t items IH]; simpl; [easy |].
  intros H. destruct (str_eqb t w) eqn:E; [reflexivity |].
  apply str_eqb_neq in E. destruct H as [H | H]; [contradiction |].
  now rewrite IH.
Qed.

Lemma first_index_lt (w : str) (items : list str) :
  In w items -> first_index w items < List.length items.
Proof.
  induction items as [| t items IH]; simpl; [easy |].
  intros H. destruct (str_eqb t w) eqn:E; [lia |].
  apply str_eqb_neq in E. destruct H as [H | H]; [contradiction |].
  apply IH in H. lia.
Qed.

Lemma first_index_new (w : str) (items : list str) :
  ~ In w items -> first_index w (items ++ [w]) = List.length items.
Proof.
  induction items as [| t items IH]; simpl.
  - now rewrite str_eqb_refl.
  - intros H. destruct (str_eqb t w) eqn:E.
    + apply str_eqb_eq in E. tauto.
    + rewrite IH; tauto.
Qed.

Lemma StronglySorted_snoc {A : Type} (R : A -> A -> Prop) (l : list A) (x : A) :
  StronglySorted R l -> Forall (fun y => R y x) l -> StronglySorted R (l ++ [x]).
Proof.
  induction 1 as [| y l Hl IH Hy]; intros Hx; simpl.
  - repeat constructor.
  - inversion Hx; subst. constructor; [auto |].
    apply Forall_app. split; [exact Hy | now constructor].
Qed.

Lemma StronglySorted_in {A : Type} (R R' : A -> A -> Prop) (l : list A) :
  (forall a b, In a l -> In b l -> R a b -> R' a b) ->
  StronglySorted R l -> StronglySorted R' l.
Proof.
  intros Himp H. induction H as [| y l Hl IH Hy]; constructor.
  - apply IH. intros a b Ha Hb. apply Himp; now right.
  - rewrite Forall_forall in *. intros b Hb. apply Himp; [now left | now right | auto].
Qed.

Lemma StronglySorted_map {A B : Type} (f : A -> B) (R : B -> B -> Prop) (l : list A) :
  StronglySorted R (List.map f l) -> StronglySorted (fun a b => R (f a) (f b)) l.
Proof.
  induction l as [| x l IH]; simpl; intros H; [constructor |].
  inversion H; subst. constructor; [auto |].
  now apply Forall_map.
Qed.

Lemma counted_Counter (items : list str) : counted items (Counter str_eqb items).
Proof.
  unfold counted.
  induction items as [| x items IH] using rev_ind.
  - repeat split; simpl; try easy; constructor.
  - rewrite Counter_snoc.
    destruct IH as (Hkeys & Hnodup & Hcount & Hsorted).
    assert (Hold : StronglySorted
                     (fun a b => first_index a (items ++ [x]) < first_index b (items ++ [x]))
                     (List.map fst (Counter str_eqb items))).
    { apply StronglySorted_in with (2 := Hsorted). intros a b Ha Hb.
      apply Hkeys in Ha, Hb. now rewrite !first_index_app_in. }
    destruct (bump_cases x (Counter str_eqb items))
      as [(before & n & after & Hc & ->) | (Hnot & ->)].
    + assert (Hsame : List.map fst (before ++ (x, S n) :: after)
                      = List.map fst (Counter str_eqb items)).
      { rewrite Hc, !map_app. reflexivity. }
      assert (Hx : In x items).
      { apply Hkeys. rewrite Hc, map_app. apply in_or_app. right. now left. }
      rewrite Hsame. repeat split; auto.
      * intros H. apply Hkeys in H. apply in_or_app. now left.
      * intros H. apply in_app_or in H as [H | [-> | []]]; apply Hkeys; auto.
      * intros w m H. rewrite count_occ_app. simpl.
        apply in_app_or in H as [H | [H | H]].
        -- assert (Hin : In (w, m) (Counter str_eqb items))
             by (rewrite Hc; apply in_or_app; now left).
           assert (w <> x).
           { intros ->. rewrite Hc, map_app in Hnodup. simpl in Hnodup.
             apply NoDup_remove_2 in Hnodup. apply Hnodup, in_or_app. left.
             now apply (in_map fst) in H. }
           rewrite (Hcount _ _ Hin). destruct (str_eq_dec x w); [congruence | lia].
        -- inversion H; subst.
           assert (Hin : In (w, n) (Counter str_eqb items))
             by (rewrite Hc; apply in_or_app; right; now left).
           rewrite (Hcount _ _ Hin). destruct (str_eq_dec w w); [lia | congruence].
        -- assert (Hin : In (w, m) (Counter str_eqb items))
             by (rewrite Hc; apply in_or_app; right; now right).
           assert (w <> x).
           { intros ->. rewrite Hc, map_app in Hnodup. simpl in Hnodup.
             apply NoDup_remove_2 in Hnodup. apply Hnodup, in_or_app. right.
             now apply (in_map fst) in H. }
           rewrite (Hcount _ _ Hin). destruct (str_eq_dec x w); [congruence | lia].
    + assert (Hx : ~ In x items) by (intros H; now apply Hkeys in H).
      rewrite map_app. simpl. repeat split.
      * intros H. apply in_app_or in H as [H | [-> | []]]; apply in_or_app.
        -- left. now apply Hkeys.
        -- right. now left.
      * intros H. apply in_app_or in H as [H | [-> | []]]; apply in_or_app.
        -- left. now apply Hkeys.
        -- right. now left.
      * apply NoDup_app; [exact Hnodup | repeat constructor; easy |].
        intros a Ha [<- | []]. contradiction.
      * intros w m H. rewrite count_occ_app. simpl.
        apply in_app_or in H as [H | [H | []]].
        -- assert (w <> x).
           { intros ->. apply Hnot. now apply (in_map fst) in H. }
           rewrite (Hcount _ _ H). destruct (str_eq_dec x w); [congruence | lia].
        -- inversion H; subst.
           rewrite (count_occ_not_In str_eq_dec) in Hx. rewrite Hx.
           destruct (str_eq_dec w w); [reflexivity | congruence].
      * apply StronglySorted_snoc; [exact Hold |].
        apply Forall_forall. intros k Hk. apply Hkeys in Hk.
        rewrite first_index_app_in by exact Hk. rewrite first_index_new by exact Hx.
        now apply first_index_lt.
Qed.

(** ** The most common words *)

Lemma insert_desc_perm {A : Type} (e : A * nat) (l : list (A * nat)) :
  Permutation (insert_desc e l) (e :: l).
Proof.
  induction l as [| y l IH]; simpl; [reflexivity |].
  destruct (snd e <? snd y); [| reflexivity].
  rewrite IH. apply perm_swap.
Qed.

Lemma sort_desc_perm {A : Type} (l : list (A * nat)) : Permutation (sort_desc l) l.
Proof.
  induction l as [| e l IH]; simpl; [reflexivity |].
  rewrite insert_desc_perm. now constructor.
Qed.

(** An entry met before all entries of a ranked list goes to its rank. *)
Lemma insert_desc_sorted (tokens : list str) (e : str * nat) (l : list (str * nat)) :
  StronglySorted (ranks_before tokens) l ->
  Forall (fun y => first_index (fst e) tokens < first_index (fst y) tokens) l ->
  StronglySorted (ranks_before tokens) (insert_desc e l).
Proof.
  induction l as [| y l IH]; simpl; intros Hs Hf.
  - repeat constructor.
  - inversion Hs as [| ? ? Hl Hy]; subst. inversion Hf as [| ? ? Hey Hel]; subst.
    destruct (snd e <? snd y) eqn:E.
    + apply Nat.ltb_lt in E. constructor; [now apply IH |].
      apply (Permutation_Forall (Permutation_sym (insert_desc_perm e l))).
      constructor; [now left | exact Hy].
    + apply Nat.ltb_ge in E. constructor; [exact Hs |].
      constructor.
      * unfold ranks_before. destruct (Nat.eq_dec (snd e) (snd y)); [right | left]; lia.
      * rewrite Forall_forall in *. intros z Hz.
        specialize (Hy z Hz). specialize (Hel z Hz).
        unfold ranks_before in *.
        destruct (Nat.eq_dec (snd e) (snd z)); [right | left]; lia.
Qed.

(** The stable sort ranks entries that come in the order they were met. *)
Lemma sort_desc_sorted (tokens : list str) (counts : list (str * nat)) :
  StronglySorted (fun a b => first_index a tokens < first_index b tokens)
                 (List.map fst counts) ->
  StronglySorted (ranks_before tokens) (sort_desc counts).
Proof.
  induction counts as [| e counts IH]; simpl; intros H; [constructor |].
  inversion H as [| ? ? Hrest He]; subst.
  apply insert_desc_sorted; [now apply IH |].
  apply (Permutation_Forall (Permutation_sym (sort_desc_perm counts))).
  rewrite Forall_forall in He |- *. intros y Hy.
  apply He. now apply in_map.
Qed.

Lemma StronglySorted_app_inv {A : Type} (R : A -> A -> Prop) (l1 l2 : list A) :
  StronglySorted R (l1 ++ l2) ->
  StronglySorted R l1 /\ StronglySorted R l2
  /\ (forall x y, In x l1 -> In y l2 -> R x y).
Proof.
  induction l1 as [| a l1 IH]; simpl; intros H.
  - repeat split; [constructor | exact H | easy].
  - inversion H as [| ? ? Hl Ha]; subst.
    destruct (IH Hl) as (H1 & H2 & H12).
    apply Forall_app in Ha as [Ha1 Ha2].
    repeat split; auto.
    + now constructor.
    + intros x y [<- | Hx] Hy; [| now apply H12].
      rewrite Forall_forall in Ha2. now apply Ha2.
Qed.

(** [most_common n] of the counts of [tokens]: at most [n] entries, each a
    word with its number of occurrences, no word twice, ranked by falling
    frequency and then by first occurrence, and every word left out ranks
    after all the entries of a full chart. *)
Lemma most_common_spec (tokens : list str) (n : nat) :
  let chart := most_common n (Counter str_eqb tokens) in
  List.length chart <= n
  /\ (forall word k,
        In (word, k) chart -> k = count_occ str_eq_dec tokens word /\ 0 < k)
  /\ NoDup (List.map fst chart)
  /\ StronglySorted (ranks_before tokens) chart
  /\ (forall word,
        In word tokens -> ~ In word (List.map fst chart) ->
        List.length chart = n
        /\ forall e, In e chart ->
                     ranks_before tokens e (word, count_occ str_eq_dec tokens word)).
Proof.
  unfold most_common.
  destruct (counted_Counter tokens) as (Hkeys & Hnodup & Hcount & Hsorted).
  set (counts := Counter str_eqb tokens) in *.
  pose proof (sort_desc_perm counts) as Hperm.
  pose proof (sort_desc_sorted tokens counts Hsorted) as Hranked.
  set (sorted := sort_desc counts) in *.
  rewrite <- (firstn_skipn n sorted) in Hranked.
  apply StronglySorted_app_inv in Hranked as (Hfirst & _ & Hcross).
  assert (Hin : forall e, In e (firstn n sorted) -> In e counts).
  { intros e He. apply (Permutation_in _ Hperm).
    rewrite <- (firstn_skipn n sorted). apply in_or_app. now left. }
  simpl. split; [apply firstn_le_length |]. split; [| split; [| split]].
  - intros word k H. apply Hin in H. split; [now apply Hcount |].
    rewrite (Hcount _ _ H). apply count_occ_In, Hkeys.
    now apply (in_map fst) in H.
  - assert (Hnd : NoDup (List.map fst sorted)).
    { apply (Permutation_NoDup (Permutation_sym (Permutation_map fst Hperm))), Hnodup. }
    rewrite <- (firstn_skipn n sorted), map_app in Hnd.
    now apply NoDup_app_remove_r in Hnd.
  - exact Hfirst.
  - intros word Hword Hout.
    apply Hkeys in Hword. apply in_map_iff in Hword as ([word' k] & Heq & Hentry).
    simpl in Heq. subst word'.
    rewrite <- (Hcount _ _ Hentry).
    apply (Permutation_in _ (Permutation_sym Hperm)) in Hentry.
    rewrite <- (firstn_skipn n sorted) in Hentry.
    apply in_app_or in Hentry as [Hentry | Hentry].
    { exfalso. apply Hout. now apply (in_map fst) in Hentry. }
    split.
    + apply firstn_length_le.
      destruct (Nat.le_gt_cases n (List.length sorted)) as [Hle | Hgt]; [exact Hle |].
      rewrite skipn_all2 in Hentry by lia. destruct Hentry.
    + intros e He. now apply Hcross.
Qed.

Lemma column_found (df : Pandas.DataFrame) (name : str) :
  In name (Pandas.columns df) -> exists values, Pandas.column df name = Ok values.
Proof.
  unfold Pandas.column, Pandas.columns.
  induction df as [| [k v] df IH]; simpl; [easy |].
  intros H. destruct (str_eqb k name) eqn:E.
  - now exists v.
  - apply str_eqb_neq in E. destruct H as [H | H]; [contradiction | auto].
Qed.

Lemma str_items_strs (reviews : list str) :
  str_items (List.map Pandas.CStr reviews) = Ok reviews.
Proof.
  induction reviews as [| r reviews IH]; simpl; [reflexivity |]. now rewrite IH.
Qed.

(** C2: for a stored file that loads with a column [Sentiment] and a
    column [Review] of strings, the third chart the visualization draws is
    [word_frequency] of the reviews.  Its words are the whitespace
    separated words of the reviews joined by single spaces, which are the
    words of each review in turn, untouched; each entry carries the number
    of occurrences of its word; there are at most 10 entries, no word
    twice, in the order of falling frequency with ties in the order the
    words are first met; and a word is left out only of a full chart and
    only if it ranks after all ten entries. *)
Theorem word_frequency_chart
        (env : Env) (path : str) (w : World) (records : list (list str))
        (df : Pandas.DataFrame) (reviews : list str) :
  lookup path (fs w) = Some (FCsv records) ->
  Pandas.read_csv (infer_column env) records = Ok df ->
  In (lit "Sentiment") (Pandas.columns df) ->
  Pandas.column df (lit "Review") = Ok (List.map Pandas.CStr reviews) ->
  let tokens := split (join (lit " ") reviews) in
  let chart := word_frequency reviews in
  (exists w' bar pie,
      visualize_sentiment_trends env path w = (w', Ok (bar, pie, WordImage chart)))
  /\ tokens = concat (List.map split reviews)
  /\ List.length chart <= 10
  /\ (forall word k,
        In (word, k) chart -> k = count_occ str_eq_dec tokens word /\ 0 < k)
  /\ NoDup (List.map fst chart)
  /\ StronglySorted (ranks_before tokens) chart
  /\ (forall word,
        In word tokens -> ~ In word (List.map fst chart) ->
        List.length chart = 10
        /\ forall e, In e chart ->
                     ranks_before tokens e (word, count_occ str_eq_dec tokens word)).
Proof.
  intros Hfile Hread Hsent Hreview tokens chart.
  split; [| split; [apply split_join | apply (most_common_spec tokens 10)]].
  destruct (column_found df (lit "Sentiment") Hsent) as (sentiment & Hcol).
  apply mem_In in Hsent.
  unfold visualize_sentiment_trends, pd_read_csv, read_file, bind, lift, savefig.
  rewrite Hfile, Hread, Hsent, Hcol. simpl.
  rewrite Hreview, str_items_strs. simpl.
  do 3 eexists. reflexivity.
Qed.

Lemma word_frequency_chart_witness :
  exists w' bar pie,
    visualize_sentiment_trends Demo.env (lit "/tmp/r.csv") Demo.stored_world
    = (w', Ok (bar, pie, WordImage [(lit "a", 2); (lit "b", 2); (lit "c", 1)])).
Proof.
  edestruct (@word_frequency_chart Demo.env (lit "/tmp/r.csv") Demo.stored_world)
    as (Hchart & _).
  - vm_compute. reflexivity.
  - vm_compute. reflexivity.
  - vm_compute. right. left. reflexivity.
  - instantiate (1 := [lit "a a b"; lit "b c"]). vm_compute. reflexivity.
  - exact Hchart.
Defined.


(** * Further properties of the code *)

(** ** The stored file and its reading back *)

Lemma union_keys_stable (ds : list Pandas.dict) (acc : list str) :
  (forall d, In d ds -> forall k, In k (List.map fst d) -> Pandas.mem k acc = true) ->
  fold_left
    (fun acc d =>
       fold_left (fun acc k => if Pandas.mem k acc then acc else acc ++ [k])
                 (List.map fst d) acc)
    ds acc = acc.
Proof.
  induction ds as [| d ds IH]; intros H; simpl; [reflexivity |].
  assert (Hd : fold_left (fun acc k => if Pandas.mem k acc then acc else acc ++ [k])
                         (List.map fst d) acc = acc).
  { assert (Hk : forall k, In k (List.map fst d) -> Pandas.mem k acc = true)
      by (intros k; apply H; now left).
    clear H IH. induction (List.map fst d) as [| k ks IHk]; simpl; [reflexivity |].
    rewrite Hk by now left. apply IHk. intros k' Hk'. apply Hk. now right. }
  rewrite Hd. apply IH. intros d' Hd'. apply H. now right.
Qed.

Lemma union_keys_records (r : ResultRecord) (rs : list ResultRecord) :
  Pandas.union_keys (List.map record_dict (r :: rs)) = header_line.
Proof.
  unfold Pandas.union_keys. simpl.
  apply union_keys_stable. intros d Hd k Hk.
  apply in_map_iff in Hd as (r' & <- & _).
  simpl in Hk. destruct Hk as [<- | [<- | []]]; reflexivity.
Qed.

Lemma map_nth_seq {A B : Type} (f : A -> B) (d : A) (l : list A) :
  List.map (fun i => f (nth i l d)) (seq 0 (List.length l)) = List.map f l.
Proof.
  induction l as [| x l IH]; [reflexivity |].
  simpl. f_equal. rewrite <- seq_shift, map_map. exact IH.
Qed.

Lemma to_csv_records (r : ResultRecord) (rs : list ResultRecord) :
  Pandas.to_csv (Pandas.of_records (List.map record_dict (r :: rs)))
  = header_line :: List.map record_line (r :: rs).
Proof.
  unfold Pandas.of_records. rewrite union_keys_records.
  generalize (r :: rs). intros results.
  unfold Pandas.to_csv, header_line, Pandas.columns, Pandas.nrows.
  cbn [List.map fst snd]. f_equal.
  rewrite !length_map.
  rewrite <- (map_nth_seq record_line {| Review := []; Sentiment := [] |} results).
  apply map_ext_in. intros i Hi. apply in_seq in Hi.
  unfold record_line.
  assert (Hcell : forall (g : ResultRecord -> str) key,
             (forall x, Pandas.dict_get (record_dict x) key = Pandas.CStr (g x)) ->
             Pandas.cell_text
               (nth i (List.map (fun d => Pandas.dict_get d key)
                                (List.map record_dict results)) Pandas.CNaN)
             = g (nth i results {| Review := []; Sentiment := [] |})).
  { intros g key Hg. rewrite map_map.
    rewrite (nth_indep _ Pandas.CNaN
               (Pandas.dict_get (record_dict {| Review := []; Sentiment := [] |}) key))
      by (rewrite length_map; lia).
    rewrite (map_nth (fun x => Pandas.dict_get (record_dict x) key)).
    now rewrite Hg. }
  rewrite (Hcell Review (lit "Review")) by reflexivity.
  rewrite (Hcell Sentiment (lit "Sentiment")) by reflexivity.
  reflexivity.
Qed.

(** X1: when the rows section yields at least one record, the file
    [process_csv] stores is the line of the two column names followed by
    one line per record, its review and its label, in the order of the
    records. *)
Theorem process_csv_stores_records
        (env : Env) (file : FileStorage) (w w1 : World) (results : list ResultRecord) :
  process_csv_results env file w = (w1, Ok results) ->
  results <> [] ->
  exists w2,
    process_csv env file w = (w2, Ok (csv_file_path env))
    /\ lookup (csv_file_path env) (fs w2)
       = Some (FCsv (header_line :: List.map record_line results)).
Proof.
  intros Hres Hne.
  pose proof (process_csv_after_results env file w Hres) as Hcsv. simpl in Hcsv.
  eexists. split; [exact Hcsv |]. simpl fs. rewrite lookup_head.
  destruct results as [| r rs]; [contradiction |].
  now rewrite to_csv_records.
Qed.

Lemma process_csv_stores_records_witness :
  lookup (csv_file_path Demo.env)
         (fs (fst (process_csv Demo.env (Demo.upload "a.csv" Demo.reviews_csv) Demo.world)))
  = Some (FCsv [[lit "Review"; lit "Sentiment"];
                [lit "good one"; lit "POSITIVE"];
                [lit "bad"; lit "NEGATIVE"];
                [lit "good two"; lit "POSITIVE"]]).
Proof.
  edestruct (@process_csv_stores_records
               Demo.env (Demo.upload "a.csv" Demo.reviews_csv) Demo.world)
    as (w2 & Hcsv & Hfile).
  - vm_compute. reflexivity.
  - discriminate.
  - rewrite Hcsv. exact Hfile.
Defined.

Lemma read_csv_records (infer : list str -> list Pandas.cell) (results : list ResultRecord) :
  Pandas.read_csv infer (header_line :: List.map record_line results)
  = Ok [(lit "Review", infer (List.map Review results));
        (lit "Sentiment", infer (List.map Sentiment results))].
Proof.
  unfold Pandas.read_csv, header_line. cbn [filter Pandas.is_blank negb].
  assert (Hfilter : filter (fun r => negb (Pandas.is_blank r)) (List.map record_line results)
                    = List.map record_line results).
  { induction results as [| r rs IH]; simpl; [reflexivity | now rewrite IH]. }
  rewrite Hfilter. clear Hfilter.
  assert (Hlong : existsb (fun r => 2 <? List.length r) (List.map record_line results)
                  = false).
  { induction results as [| r rs IH]; simpl; [reflexivity | exact IH]. }
  cbn [List.length]. rewrite Hlong.
  cbn [Pandas.enumerate_from List.map fst snd].
  rewrite !map_map. reflexivity.
Qed.

Lemma stored_frame
      (env : Env) (file : FileStorage) (w w1 : World) (results : list ResultRecord) :
  process_csv_results env file w = (w1, Ok results) ->
  results <> [] ->
  exists w2,
    process_csv env file w = (w2, Ok (csv_file_path env))
    /\ pd_read_csv env (csv_file_path env) w2
       = (w2, Ok [(lit "Review", infer_column env (List.map Review results));
                  (lit "Sentiment", infer_column env (List.map Sentiment results))]).
Proof.
  intros Hres Hne.
  pose proof (process_csv_after_results env file w Hres) as Hcsv. simpl in Hcsv.
  eexists. split; [exact Hcsv |].
  unfold pd_read_csv, read_file, bind, lift. simpl fs. rewrite lookup_head.
  destruct results as [| r rs]; [contradiction |].
  now rewrite to_csv_records, read_csv_records.
Qed.

(** X2: the stored file of a run with at least one record reads back as a
    frame of exactly the two columns [Review] and [Sentiment], whose
    values are what the type inference of the reader makes of the reviews
    and of the labels. *)
Theorem stored_file_reads_back
        (env : Env) (file : FileStorage) (w w1 : World) (results : list ResultRecord) :
  process_csv_results env file w = (w1, Ok results) ->
  results <> [] ->
  exists w2,
    process_csv env file w = (w2, Ok (csv_file_path env))
    /\ pd_read_csv env (csv_file_path env) w2
       = (w2, Ok [(lit "Review", infer_column env (List.map Review results));
                  (lit "Sentiment", infer_column env (List.map Sentiment results))]).
Proof. apply stored_frame. Qed.

Lemma stored_file_reads_back_witness :
  exists w2,
    pd_read_csv Demo.env (csv_file_path Demo.env) w2
    = (w2, Ok [(lit "Review", [Pandas.CNaN]);
               (lit "Sentiment", [Pandas.CStr (lit "POSITIVE")])]).
Proof.
  edestruct (@stored_file_reads_back Demo.env (Demo.upload "a.csv" ",x") Demo.world)
    as (w2 & _ & Hread).
  - vm_compute. reflexivity.
  - discriminate.
  - exists w2. exact Hread.
Defined.

(** ** The charts of a loaded frame *)

Lemma column_missing (df : Pandas.DataFrame) (name : str) :
  ~ In name (Pandas.columns df) -> Pandas.column df name = Raise (KeyError name).
Proof.
  unfold Pandas.column, Pandas.columns.
  induction df as [| [k v] df IH]; simpl; [reflexivity |].
  intros H. destruct (str_eqb k name) eqn:E.
  - apply str_eqb_eq in E. tauto.
  - apply IH. tauto.
Qed.

Lemma str_items_raise (cells : list Pandas.cell) :
  existsb (fun c => negb (is_str c)) cells = true ->
  str_items cells = Raise (TypeError (lit "sequence item: expected str instance")).
Proof.
  induction cells as [| c cells IH]; simpl; [discriminate |].
  destruct c as [s | | n]; simpl; try reflexivity.
  intros H. now rewrite IH.
Qed.

(** The visualization of a frame that has the column [Sentiment]: the bar
    chart and the pie chart are drawn first, from the same counts; then
    the column [Review] is looked up and its items are joined. *)
Lemma visualize_frame (env : Env) (path : str) (w : World) (df : Pandas.DataFrame) :
  pd_read_csv env path w = (w, Ok df) ->
  In (lit "Sentiment") (Pandas.columns df) ->
  exists sentiment,
    Pandas.column df (lit "Sentiment") = Ok sentiment
    /\ let counts := Pandas.value_counts sentiment in
       let drawn := log (EvSavefig (PieImage counts)) (log (EvSavefig (BarImage counts)) w) in
       visualize_sentiment_trends env path w
       = match Pandas.column df (lit "Review") with
         | Raise e => (drawn, Raise e)
         | Ok review =>
             match str_items review with
             | Raise e => (drawn, Raise e)
             | Ok reviews =>
                 (log (EvSavefig (WordImage (word_frequency reviews))) drawn,
                  Ok (BarImage counts, PieImage counts, WordImage (word_frequency reviews)))
             end
         end.
Proof.
  intros Hread Hsent.
  destruct (column_found df (lit "Sentiment") Hsent) as (sentiment & Hcol).
  exists sentiment. split; [exact Hcol |].
  apply mem_In in Hsent.
  unfold visualize_sentiment_trends. unfold bind at 1. rewrite Hread, Hsent.
  unfold bind, lift, savefig. rewrite Hcol. simpl.
  destruct (Pandas.column df (lit "Review")) as [review | e]; [| reflexivity].
  destruct (str_items review) as [reviews | e]; reflexivity.
Qed.

Lemma lookup_tail {A : Type} (k k1 : str) (v : A) (l : list (str * A)) :
  str_eqb k1 k = false -> lookup k ((k1, v) :: l) = lookup k l.
Proof. intros H. unfold lookup. simpl. now rewrite H. Qed.

(** X3: a CSV upload with at least one record whose reviews the reader
    keeps as strings is answered with the page of the three charts, and
    the three image files hold the bar chart and the pie chart of the
    counts of the labels and the word chart of the reviews as read back. *)
Theorem csv_upload_renders_charts
        (env : Env) (request : Request) (file : FileStorage) (w w1 : World)
        (results : list ResultRecord) (reviews : list str) :
  method request = POST ->
  lookup (lit "file") (req_files request) = Some file ->
  endswith (filename file) (lit ".csv") = true ->
  process_csv_results env file w = (w1, Ok results) ->
  results <> [] ->
  infer_column env (List.map Review results) = List.map Pandas.CStr reviews ->
  let counts := Pandas.value_counts (infer_column env (List.map Sentiment results)) in
  exists w3,
    upload_file env request w = (w3, Ok page_with_charts)
    /\ lookup bar_image_path (fs w3) = Some (FPng (BarImage counts))
    /\ lookup pie_image_path (fs w3) = Some (FPng (PieImage counts))
    /\ lookup word_frequency_image_path (fs w3)
       = Some (FPng (WordImage (word_frequency reviews))).
Proof.
  intros Hm Hl Hc Hres Hne Hinfer counts.
  destruct (stored_frame env file w Hres Hne) as (w2 & Hcsv & Hread).
  destruct (@visualize_frame env (csv_file_path env) w2 _ Hread)
    as (sentiment & Hcol & Hviz).
  { simpl. right. now left. }
  simpl in Hcol. inversion Hcol; subst sentiment; clear Hcol.
  simpl in Hviz. rewrite Hinfer, str_items_strs in Hviz.
  rewrite (upload_file_csv env request Hm Hl Hc).
  unfold bind at 1. rewrite Hcsv.
  unfold render_charts, bind. rewrite Hviz.
  unfold write_file, ret. simpl.
  eexists. split; [reflexivity |]. simpl fs.
  split; [| split].
  - rewrite lookup_tail by reflexivity. rewrite lookup_tail by reflexivity.
    apply lookup_head.
  - rewrite lookup_tail by reflexivity. apply lookup_head.
  - apply lookup_head.
Qed.

Lemma csv_upload_renders_charts_witness :
  exists w3,
    upload_file Demo.env (Demo.post "a.csv" Demo.reviews_csv) Demo.world
    = (w3, Ok page_with_charts)
    /\ lookup word_frequency_image_path (fs w3)
       = Some (FPng (WordImage [(lit "good", 2); (lit "one", 1);
                                (lit "bad", 1); (lit "two", 1)])).
Proof.
  edestruct (@csv_upload_renders_charts
               Demo.env (Demo.post "a.csv" Demo.reviews_csv)
               (Demo.upload "a.csv" Demo.reviews_csv) Demo.world)
    as (w3 & Hpage & _ & _ & Hwords).
  - reflexivity.
  - reflexivity.
  - reflexivity.
  - vm_compute. reflexivity.
  - discriminate.
  - instantiate (1 := [lit "good one"; lit "bad"; lit "good two"]).
    vm_compute. reflexivity.
  - exists w3. split; [exact Hpage | exact Hwords].
Defined.

(** X4: when the reader makes something else than a string of one of the
    stored reviews (a missing value for an empty review, a number), the
    visualization draws the bar chart and the pie chart and then raises a
    [TypeError] at the joining of the reviews; the handler ends with that
    exception and writes none of the three image files. *)
Theorem non_string_review_aborts_after_two_charts
        (env : Env) (request : Request) (file : FileStorage) (w w1 : World)
        (results : list ResultRecord) :
  method request = POST ->
  lookup (lit "file") (req_files request) = Some file ->
  endswith (filename file) (lit ".csv") = true ->
  process_csv_results env file w = (w1, Ok results) ->
  results <> [] ->
  existsb (fun c => negb (is_str c)) (infer_column env (List.map Review results)) = true ->
  let counts := Pandas.value_counts (infer_column env (List.map Sentiment results)) in
  let error := TypeError (lit "sequence item: expected str instance") in
  exists w2 w3,
    process_csv env file w = (w2, Ok (csv_file_path env))
    /\ visualize_sentiment_trends env (csv_file_path env) w2 = (w3, Raise error)
    /\ trace w3 = trace w2 ++ [EvSavefig (BarImage counts); EvSavefig (PieImage counts)]
    /\ fs w3 = fs w2
    /\ upload_file env request w = (w3, Raise error).
Proof.
  intros Hm Hl Hc Hres Hne Hbad counts error.
  destruct (stored_frame env file w Hres Hne) as (w2 & Hcsv & Hread).
  destruct (@visualize_frame env (csv_file_path env) w2 _ Hread)
    as (sentiment & Hcol & Hviz).
  { simpl. right. now left. }
  simpl in Hcol. inversion Hcol; subst sentiment; clear Hcol.
  simpl in Hviz. rewrite (str_items_raise _ Hbad) in Hviz.
  exists w2. eexists. split; [exact Hcsv |]. split; [exact Hviz |].
  split; [| split].
  - simpl. now rewrite <- app_assoc.
  - reflexivity.
  - rewrite (upload_file_csv env request Hm Hl Hc).
    unfold bind at 1. rewrite Hcsv.
    unfold render_charts. apply bind_raise. exact Hviz.
Qed.

Lemma non_string_review_aborts_after_two_charts_witness :
  snd (upload_file Demo.env (Demo.post "a.csv" ",x") Demo.world)
  = Raise (TypeError (lit "sequence item: expected str instance")).
Proof.
  edestruct (@non_string_review_aborts_after_two_charts
               Demo.env (Demo.post "a.csv" ",x") (Demo.upload "a.csv" ",x") Demo.world)
    as (w2 & w3 & _ & _ & _ & _ & Hhandler).
  - reflexivity.
  - reflexivity.
  - reflexivity.
  - vm_compute. reflexivity.
  - discriminate.
  - vm_compute. reflexivity.
  - rewrite Hhandler. reflexivity.
Defined.

(** X5: the visualization checks for the column [Sentiment] only.  A
    stored file that loads with that column but without a column [Review]
    gets its bar chart and pie chart drawn, and then the lookup of the
    reviews raises [KeyError] for [Review]. *)
Theorem missing_review_column_raises_key_error
        (env : Env) (path : str) (w : World) (records : list (list str))
        (df : Pandas.DataFrame) :
  lookup path (fs w) = Some (FCsv records) ->
  Pandas.read_csv (infer_column env) records = Ok df ->
  In (lit "Sentiment") (Pandas.columns df) ->
  ~ In (lit "Review") (Pandas.columns df) ->
  exists sentiment w',
    Pandas.column df (lit "Sentiment") = Ok sentiment
    /\ visualize_sentiment_trends env path w = (w', Raise (KeyError (lit "Review")))
    /\ trace w' = trace w ++ [EvSavefig (BarImage (Pandas.value_counts sentiment));
                              EvSavefig (PieImage (Pandas.value_counts sentiment))]
    /\ fs w' = fs w.
Proof.
  intros Hfile Hload Hsent Hrev.
  assert (Hread : pd_read_csv env path w = (w, Ok df)).
  { unfold pd_read_csv, read_file, bind, lift. now rewrite Hfile, Hload. }
  destruct (@visualize_frame env path w _ Hread Hsent) as (sentiment & Hcol & Hviz).
  simpl in Hviz. rewrite (column_missing df (lit "Review") Hrev) in Hviz.
  exists sentiment. eexists. split; [exact Hcol |]. split; [exact Hviz |].
  split; [| reflexivity]. simpl. now rewrite <- app_assoc.
Qed.

Lemma missing_review_column_raises_key_error_witness :
  snd (visualize_sentiment_trends Demo.env (lit "/tmp/r.csv") Demo.no_review_world)
  = Raise (KeyError (lit "Review")).
Proof.
  edestruct (@missing_review_column_raises_key_error
               Demo.env (lit "/tmp/r.csv") Demo.no_review_world)
    as (sentiment & w' & _ & Hviz & _).
  - vm_compute. reflexivity.
  - vm_compute. reflexivity.
  - vm_compute. left. reflexivity.
  - vm_compute. intros [H | []]. discriminate H.
  - rewrite Hviz. reflexivity.
Defined.

(** ** Counts of labels *)

Lemma bump_total {A : Type} (eqb : A -> A -> bool) (x : A) (counts : list (A * nat)) :
  list_sum (List.map snd (bump eqb x counts)) = S (list_sum (List.map snd counts)).
Proof.
  induction counts as [| [y n] counts IH]; simpl; [reflexivity |].
  destruct (eqb y x); simpl; [reflexivity | rewrite IH; lia].
Qed.

Lemma Counter_total {A : Type} (eqb : A -> A -> bool) (items : list A) :
  list_sum (List.map snd (Counter eqb items)) = List.length items.
Proof.
  unfold Counter.
  assert (H : forall acc,
             list_sum (List.map snd (fold_left (fun counts x => bump eqb x counts) items acc))
             = List.length items + list_sum (List.map snd acc)).
  { induction items as [| x items IH]; intros acc; simpl; [reflexivity |].
    rewrite IH, bump_total. lia. }
  rewrite H. simpl. lia.
Qed.

Lemma list_sum_permutation (l l' : list nat) :
  Permutation l l' -> list_sum l = list_sum l'.
Proof. induction 1; simpl; lia. Qed.

Lemma value_counts_total (values : list Pandas.cell) :
  list_sum (List.map snd (Pandas.value_counts values))
  = List.length (filter (fun c => negb (Pandas.is_nan c)) values).
Proof.
  unfold Pandas.value_counts.
  rewrite (list_sum_permutation (Permutation_map snd (sort_desc_perm _))).
  apply Counter_total.
Qed.

(** X6: for a stored file that loads with a column [Sentiment], whatever
    the visualization ends with, the first two things it draws are the bar
    chart and the pie chart of the same counts, and these counts add up to
    the number of values of the column that are not missing. *)
Theorem bar_and_pie_counts_add_up
        (env : Env) (path : str) (w w' : World) (records : list (list str))
        (df : Pandas.DataFrame) (r : result (image * image * image)) :
  lookup path (fs w) = Some (FCsv records) ->
  Pandas.read_csv (infer_column env) records = Ok df ->
  In (lit "Sentiment") (Pandas.columns df) ->
  visualize_sentiment_trends env path w = (w', r) ->
  exists sentiment rest,
    Pandas.column df (lit "Sentiment") = Ok sentiment
    /\ trace w' = trace w ++ EvSavefig (BarImage (Pandas.value_counts sentiment))
                          :: EvSavefig (PieImage (Pandas.value_counts sentiment)) :: rest
    /\ list_sum (List.map snd (Pandas.value_counts sentiment))
       = List.length (filter (fun c => negb (Pandas.is_nan c)) sentiment).
Proof.
  intros Hfile Hload Hsent Hrun.
  assert (Hread : pd_read_csv env path w = (w, Ok df)).
  { unfold pd_read_csv, read_file, bind, lift. now rewrite Hfile, Hload. }
  destruct (@visualize_frame env path w _ Hread Hsent) as (sentiment & Hcol & Hviz).
  simpl in Hviz. rewrite Hviz in Hrun.
  exists sentiment.
  destruct (Pandas.column df (lit "Review")) as [review | e].
  - destruct (str_items review) as [reviews | e]; inversion Hrun; subst; simpl.
    + exists [EvSavefig (WordImage (word_frequency reviews))].
      rewrite <- !app_assoc. auto using value_counts_total.
    + exists []. rewrite <- !app_assoc. auto using value_counts_total.
  - inversion Hrun; subst; simpl.
    exists []. rewrite <- !app_assoc. auto using value_counts_total.
Qed.

Lemma bar_and_pie_counts_add_up_witness :
  exists rest,
    trace (fst (visualize_sentiment_trends Demo.env (lit "/tmp/r.csv") Demo.stored_world))
    = EvSavefig (BarImage [(Pandas.CStr (lit "POSITIVE"), 1);
                           (Pandas.CStr (lit "NEGATIVE"), 1)])
      :: EvSavefig (PieImage [(Pandas.CStr (lit "POSITIVE"), 1);
                              (Pandas.CStr (lit "NEGATIVE"), 1)]) :: rest.
Proof.
  edestruct (@bar_and_pie_counts_add_up Demo.env (lit "/tmp/r.csv") Demo.stored_world)
    as (sentiment & rest & Hcol & Htrace & _).
  - vm_compute. reflexivity.
  - vm_compute. reflexivity.
  - vm_compute. right. left. reflexivity.
  - apply surjective_pairing.
  - exists rest. rewrite Htrace.
    vm_compute in Hcol. inversion Hcol; subst sentiment. reflexivity.
Defined.

(** ** What [process_csv] can raise *)

Lemma decode_upload_ok (data : bytes) : exists text, decode_upload data = Ok text.
Proof.
  unfold decode_upload. destruct (Codec.decode_utf8 data) as [text | e] eqn:E.
  - now exists text.
  - apply decode_utf8_raise in E as ->. unfold Codec.decode_latin1. eauto.
Qed.

Lemma flush_line (Q : str -> Prop) (cur : str) :
  Q (rev cur) -> Forall Q (flush cur).
Proof.
  intros H. destruct cur as [| c cur]; unfold flush; constructor; [exact H | constructor].
Qed.

(** The lines of [splitlines] are made of characters of the text, and none
    of them is a line feed or a carriage return. *)
Lemma splitlines_from_chars (P : codepoint -> Prop) (n : nat) :
  forall (s cur : str),
    List.length s <= n ->
    Forall P cur -> Forall P s ->
    Forall (fun c => Csv.is_newline c = false) cur ->
    Forall (fun line => Forall P line
                        /\ Forall (fun c => Csv.is_newline c = false) line
                        /\ List.length line <= List.length cur + List.length s)
           (splitlines_from cur s).
Proof.
  induction n as [| n IH]; intros s cur Hlen Hcur Hs Hclean.
  - destruct s; [| simpl in Hlen; lia]. simpl splitlines_from.
    apply flush_line.
    split; [now apply Forall_rev |].
    split; [now apply Forall_rev | rewrite length_rev; lia].
  - assert (Hline : Forall P (rev cur)
                    /\ Forall (fun c => Csv.is_newline c = false) (rev cur)
                    /\ List.length (rev cur) <= List.length cur + List.length s)
      by (split; [now apply Forall_rev |];
          split; [now apply Forall_rev | rewrite length_rev; lia]).
    destruct s as [| c s'].
    { simpl splitlines_from. apply flush_line. exact Hline. }
    simpl in Hlen. inversion Hs as [| ? ? Hc Hs']; subst.
    assert (Hnext : forall t,
               List.length t <= List.length s' -> Forall P t ->
               Forall (fun line => Forall P line
                                   /\ Forall (fun c => Csv.is_newline c = false) line
                                   /\ List.length line
                                      <= List.length cur + List.length (c :: s'))
                      (splitlines_from [] t)).
    { intros t Ht HPt.
      pose proof (IH t [] ltac:(lia) (Forall_nil _) HPt (Forall_nil _)) as H.
      apply Forall_impl with (2 := H). simpl. intros line (H1 & H2 & H3).
      repeat split; auto. lia. }
    simpl splitlines_from.
    destruct (c =? 13)%N eqn:E13.
    + destruct s' as [| c' s''].
      * constructor; [exact Hline | now apply Hnext].
      * destruct (c' =? 10)%N.
        -- constructor; [exact Hline |].
           inversion Hs'; subst. apply Hnext; [simpl; lia | assumption].
        -- constructor; [exact Hline | now apply Hnext].
    + destruct (is_linebreak c) eqn:Ebreak.
      * constructor; [exact Hline | now apply Hnext].
      * assert (Hcn : Csv.is_newline c = false).
        { unfold Csv.is_newline. rewrite E13, orb_false_r.
          destruct (c =? 10)%N eqn:E10; [| reflexivity].
          apply N.eqb_eq in E10. subst c. discriminate Ebreak. }
        pose proof (IH s' (c :: cur) ltac:(lia) (Forall_cons _ Hc Hcur) Hs'
                       (Forall_cons _ Hcn Hclean)) as H.
        apply Forall_impl with (2 := H). simpl. intros line (H1 & H2 & H3).
        repeat split; auto. lia.
Qed.

Lemma splitlines_chars (P : codepoint -> Prop) (s : str) :
  Forall P s ->
  Forall (fun line => Forall P line
                      /\ Forall (fun c => Csv.is_newline c = false) line
                      /\ List.length line <= List.length s)
         (splitlines s).
Proof.
  intros Hs.
  apply (@splitlines_from_chars P (List.length s) s [] (le_n _) (Forall_nil _) Hs
           (Forall_nil _)).
Qed.

(** A character that is not a line end never brings the automaton into
    the state that raises the new-line error. *)
Lemma parse_process_char_clean (r : Csv.reader) (c : option codepoint) :
  Csv.st r <> Csv.EAT_CRNL ->
  (forall x, c = Some x -> Csv.is_newline x = false) ->
  match Csv.parse_process_char r c with
  | Ok r' => Csv.st r' <> Csv.EAT_CRNL
  | Raise e => e = field_limit_error
  end.
Proof.
  intros Hst Hc. destruct r as [s f fs]. simpl in Hst.
  unfold Csv.parse_process_char, Csv.in_start_field, Csv.end_of_record,
    Csv.parse_add_char, Csv.set_state, Csv.parse_save_field.
  destruct c as [x |]; [rewrite (Hc x eq_refl) |];
    destruct s; simpl; try congruence;
    repeat (match goal with
            | |- context [if ?b then _ else _] => destruct b
            end; simpl);
    try congruence; try reflexivity; discriminate.
Qed.

Lemma feed_line_clean (line : str) :
  forall r,
    Forall (fun c => Csv.is_newline c = false) line ->
    Csv.st r <> Csv.EAT_CRNL ->
    match Csv.feed_line r line with
    | Ok r' => Csv.st r' <> Csv.EAT_CRNL
    | Raise e => e = field_limit_error
    end.
Proof.
  induction line as [| c line IH]; intros r Hline Hst; simpl.
  - apply parse_process_char_clean; [exact Hst | discriminate].
  - inversion Hline; subst.
    pose proof (@parse_process_char_clean r (Some c) Hst) as Hstep.
    destruct (Csv.parse_process_char r (Some c)) as [r' | e].
    + apply IH; [assumption |]. apply Hstep. intros x Hx. now inversion Hx; subst.
    + apply Hstep. intros x Hx. now inversion Hx; subst.
Qed.

Lemma iterate_clean (lines : list str) :
  forall r e,
    Forall (Forall (fun c => Csv.is_newline c = false)) lines ->
    Csv.st r <> Csv.EAT_CRNL ->
    snd (Csv.iterate r lines) = Some e -> e = field_limit_error.
Proof.
  induction lines as [| line lines IH]; intros r e Hlines Hst H; simpl in H.
  - destruct (negb (List.length (Csv.field r) =? 0) || Csv.in_quoted_field (Csv.st r));
      discriminate.
  - inversion Hlines; subst.
    pose proof (@feed_line_clean line r ltac:(assumption) Hst) as Hfeed.
    destruct (Csv.feed_line r line) as [r' | e'].
    + destruct (Csv.st r') eqn:E;
        try (apply (IH r' e); [assumption | congruence | exact H]).
      destruct (Csv.iterate Csv.parse_reset lines) as [rows err] eqn:Eit.
      simpl in H. apply (IH Csv.parse_reset e); [assumption | discriminate |].
      now rewrite Eit.
    + simpl in H. inversion H. congruence.
Qed.

Lemma for_rows_raise (env : Env) (rows : list (list str)) :
  forall (acc : list ResultRecord) (w w' : World) (e : exn),
    for_rows env rows acc w = (w', Raise e) ->
    answered_with e (trace w') /\ fs w' = fs w /\ stdout w' = stdout w.
Proof.
  induction rows as [| row rows IH]; intros acc w w' e H.
  - discriminate.
  - destruct row as [| text more].
    + simpl in H. now apply IH in H.
    + rewrite for_rows_text in H.
      apply bind_inv in H as [(w1 & ar & Ha & Hr) | (e' & Ha & He)].
      * apply analyze_ok in Ha as (_ & Hf & Hs).
        apply IH in Hr as (Hans & Hf' & Hs'). repeat split; congruence.
      * inversion He; subst e'.
        apply analyze_raise in Ha as (Hf & Hs & [Ht | (label & Ht)]).
        -- repeat split; auto. exists text. left. rewrite Ht.
           apply in_or_app. right. now left.
        -- repeat split; auto. exists text. right. rewrite Ht.
           apply in_or_app. right. right. now left.
Qed.

(** X7: an exception that leaves [process_csv] is either the field limit
    error of the CSV reader or the exception with which the text service
    answered the last call this run made: the events the run added to the
    trace are fully answered analyses followed by the one analysis that
    raised it.  In both cases nothing has been written to the file system
    and nothing printed.  In particular no decode error and no upload
    error ever leaves [process_csv]. *)
Theorem process_csv_raises_only
        (env : Env) (file : FileStorage) (w w' : World) (e : exn) :
  process_csv env file w = (w', Raise e) ->
  exists new,
    trace w' = trace w ++ new
    /\ (e = field_limit_error
        \/ (answered_with e new
            /\ exists done calls t tail,
                 new = calls ++ tail /\ completed done calls /\ failed_call t e tail))
    /\ fs w' = fs w
    /\ stdout w' = stdout w.
Proof.
  intros H.
  destruct (process_csv_inv env file w H) as [(e' & He & Hres) | (w1 & results & _ & Hr)];
    [| discriminate].
  inversion He; subst e'; clear He.
  destruct (decode_upload_ok (stream file)) as (text & Hd).
  destruct (Csv.reader_rows (splitlines text)) as [rows stop] eqn:Hrows.
  rewrite (process_csv_results_unfold env file w Hd Hrows) in Hres.
  apply bind_inv in Hres as [(w1 & results & Hloop & Hstop) | (e' & Hloop & He)].
  - destruct stop as [e' |]; [| discriminate].
    unfold raise in Hstop. inversion Hstop; subst.
    apply for_rows_spec in Hloop as (new & Ht & Hf & Hs & _).
    exists new. split; [exact Ht |]. split; [| split; assumption]. left.
    apply (@iterate_clean (splitlines text) Csv.parse_reset e).
    + assert (Hany : Forall (fun _ : codepoint => True) text)
        by (apply Forall_forall; intros; exact I).
      apply Forall_impl with (2 := splitlines_chars Hany).
      now intros line (_ & Hline & _).
    + discriminate.
    + unfold Csv.reader_rows in Hrows. now rewrite Hrows.
  - inversion He; subst e'.
    destruct (for_rows_raise env rows [] w Hloop) as (_ & Hf & Hs).
    apply for_rows_trace in Hloop
      as (done & rest & calls & tail & _ & Ht & Hc & t & rest' & _ & Hfail).
    exists (calls ++ tail). split; [exact Ht |]. split; [| split; assumption].
    right. split.
    + exists t. destruct Hfail as [-> | (label & ->)].
      * left. apply in_or_app. right. now left.
      * right. apply in_or_app. right. right. now left.
    + now exists done, calls, t, tail.
Qed.

Lemma process_csv_raises_only_witness :
  exists new,
    trace (fst (process_csv Demo.strict_env (Demo.upload "a.csv" Demo.reviews_csv)
                            Demo.world)) = trace Demo.world ++ new
    /\ answered_with (ServiceError (lit "Throttling")) new
    /\ fs (fst (process_csv Demo.strict_env (Demo.upload "a.csv" Demo.reviews_csv)
                           Demo.world)) = [].
Proof.
  destruct (@process_csv_raises_only
              Demo.strict_env (Demo.upload "a.csv" Demo.reviews_csv) Demo.world
              (fst (process_csv Demo.strict_env (Demo.upload "a.csv" Demo.reviews_csv)
                                Demo.world))
              (ServiceError (lit "Throttling")))
    as (new & Htrace & [Hlimit | (Hservice & _)] & Hfs & _).
  - vm_compute. reflexivity.
  - discriminate Hlimit.
  - exists new. split; [exact Htrace |]. split; [exact Hservice | exact Hfs].
Defined.

(** X8: the loop reads nothing but the first field of a row: two lists of
    rows that agree on their first fields, row by row, give the same run,
    with the same calls and the same records, whatever the other columns
    hold. *)
Theorem other_columns_are_ignored
        (env : Env) (rows rows' : list (list str)) (acc : list ResultRecord) (w : World) :
  List.map (firstn 1) rows = List.map (firstn 1) rows' ->
  for_rows env rows acc w = for_rows env rows' acc w.
Proof.
  revert rows' acc w.
  induction rows as [| row rows IH]; intros [| row' rows'] acc w H;
    try discriminate; [reflexivity |].
  simpl in H. inversion H as [[Hrow Hrest]].
  destruct row as [| text more], row' as [| text' more']; try discriminate.
  - simpl. now apply IH.
  - simpl in Hrow. inversion Hrow; subst text'.
    rewrite !for_rows_text. unfold bind.
    destruct (analyze_with_comprehend env text w) as [w1 [ar | e]]; [| reflexivity].
    now apply IH.
Qed.

Lemma other_columns_are_ignored_witness :
  for_rows Demo.env [[lit "bad"; lit "5 stars"]; []] [] Demo.world
  = for_rows Demo.env [[lit "bad"]; []] [] Demo.world.
Proof.
  apply (@other_columns_are_ignored Demo.env). reflexivity.
Defined.

(** ** The name of the stored file in the object store *)

Lemma basename_from_plain (b : str) :
  Forall (fun c => c <> 47%N) b ->
  forall cur, basename_from cur b = rev cur ++ b.
Proof.
  induction 1 as [| c b Hc Hb IH]; intros cur; simpl.
  - now rewrite app_nil_r.
  - apply N.eqb_neq in Hc. rewrite Hc, IH. simpl. now rewrite <- app_assoc.
Qed.

Lemma basename_from_slash (a b : str) :
  Forall (fun c => c <> 47%N) b ->
  forall cur, basename_from cur (a ++ 47%N :: b) = b.
Proof.
  intros Hb. induction a as [| c a IH]; intros cur; simpl.
  - now rewrite basename_from_plain.
  - destruct (c =? 47)%N; apply IH.
Qed.

Lemma match_slash {T : Type} (c : codepoint) (x y : T) :
  c <> 47%N -> match c with 47%N => x | _ => y end = y.
Proof.
  intros Hc. destruct c as [| p]; [reflexivity |].
  do 6 (destruct p as [p | p |]; try reflexivity). contradiction.
Qed.

Lemma join_tail (a b : str) :
  match rev a with
  | [] => b
  | 47%N :: _ => a ++ b
  | _ => a ++ 47%N :: b
  end = b
  \/ exists a', match rev a with
                | [] => b
                | 47%N :: _ => a ++ b
                | _ => a ++ 47%N :: b
                end = a' ++ 47%N :: b.
Proof.
  destruct (rev a) as [| c t] eqn:E; [now left |].
  right. destruct (N.eq_dec c 47) as [-> | Hc].
  - exists (rev t). rewrite <- (rev_involutive a), E. simpl.
    now rewrite <- app_assoc.
  - exists a. now rewrite match_slash.
Qed.

(** [os.path.basename] undoes [os.path.join] for a name without slash. *)
Lemma basename_join (a b : str) :
  Forall (fun c => c <> 47%N) b ->
  os_path_basename (os_path_join a b) = b.
Proof.
  intros Hb. unfold os_path_basename, os_path_join.
  destruct b as [| c b'].
  - destruct (join_tail a []) as [-> | (a' & ->)];
      [reflexivity | now apply basename_from_slash].
  - cbv beta iota.
    rewrite match_slash by (now inversion Hb).
    destruct (join_tail a (c :: b')) as [-> | (a' & ->)].
    + now rewrite basename_from_plain.
    + now apply basename_from_slash.
Qed.

(** X9: whatever the temporary directory of the process is, the stored
    file is uploaded under the key [sentiment_analysis_results.csv], to
    the configured bucket, by exactly one call made after the rows
    section, and that call is the last thing [process_csv] does to the
    outside. *)
Theorem stored_file_uploaded_under_fixed_key
        (env : Env) (file : FileStorage) (w w1 : World) (results : list ResultRecord) :
  process_csv_results env file w = (w1, Ok results) ->
  os_path_basename (csv_file_path env) = lit "sentiment_analysis_results.csv"
  /\ exists w2 answer,
       process_csv env file w = (w2, Ok (csv_file_path env))
       /\ trace w2 = trace w1
                     ++ [EvUploadFile (csv_file_path env) (bucket_name env)
                                      (lit "sentiment_analysis_results.csv") answer].
Proof.
  intros Hres.
  assert (Hkey : os_path_basename (csv_file_path env)
                 = lit "sentiment_analysis_results.csv").
  { unfold csv_file_path. apply basename_join.
    apply Forall_forall. intros c Hc.
    vm_compute in Hc.
    repeat (destruct Hc as [<- | Hc]; [discriminate |]). destruct Hc. }
  split; [exact Hkey |].
  pose proof (process_csv_after_results env file w Hres) as Hcsv. simpl in Hcsv.
  rewrite Hkey in Hcsv.
  eexists. eexists. split; [exact Hcsv | reflexivity].
Qed.

Lemma stored_file_uploaded_under_fixed_key_witness :
  os_path_basename (csv_file_path Demo.env) = lit "sentiment_analysis_results.csv".
Proof.
  edestruct (@stored_file_uploaded_under_fixed_key
               Demo.env (Demo.upload "a.csv" Demo.reviews_csv) Demo.world)
    as (Hkey & _).
  - vm_compute. reflexivity.
  - exact Hkey.
Defined.

(** ** The words of the chart *)

Lemma flush_words (cur : str) :
  Forall (fun c => isspace c = false) cur ->
  Forall (fun word => word <> [] /\ Forall (fun c => isspace c = false) word)
         (flush cur).
Proof.
  intros Hcur. destruct cur as [| c cur]; unfold flush; constructor; [| constructor].
  split; [| now apply Forall_rev].
  intros Hnil. apply (f_equal (@List.length codepoint)) in Hnil.
  rewrite length_rev in Hnil. discriminate.
Qed.

Lemma split_from_words (s : str) :
  forall cur,
    Forall (fun c => isspace c = false) cur ->
    Forall (fun word => word <> [] /\ Forall (fun c => isspace c = false) word)
           (split_from cur s).
Proof.
  induction s as [| c s IH]; intros cur Hcur; simpl.
  - now apply flush_words.
  - destruct (isspace c) eqn:E.
    + apply Forall_app. split; [now apply flush_words | apply IH; constructor].
    + apply IH. now constructor.
Qed.

Lemma split_from_nil (s : str) :
  forall cur,
    split_from cur s = [] <-> cur = [] /\ Forall (fun c => isspace c = true) s.
Proof.
  induction s as [| c s IH]; intros cur; simpl.
  - destruct cur; simpl; split; try easy; intros [H _]; discriminate.
  - destruct (isspace c) eqn:E.
    + split.
      * intros H. apply app_eq_nil in H as [Hflush Hrest].
        apply IH in Hrest as [_ Hs].
        destruct cur; [| discriminate]. split; [reflexivity | now constructor].
      * intros [-> Hs]. inversion Hs; subst. simpl. apply IH. now split.
    + split.
      * intros H. apply IH in H as [H _]. discriminate.
      * intros [_ Hs]. inversion Hs; congruence.
Qed.

(** X10: every word of the chart is a word of one of the reviews: it is
    not empty, has no whitespace character in it, and comes out of the
    splitting of that review alone; its count is positive.  No chart entry
    is made of the end of one review and the start of the next. *)
Theorem charted_words_are_review_words (reviews : list str) (word : str) (k : nat) :
  In (word, k) (word_frequency reviews) ->
  word <> []
  /\ Forall (fun c => isspace c = false) word
  /\ 0 < k
  /\ exists review, In review reviews /\ In word (split review).
Proof.
  intros Hin.
  destruct (most_common_spec (split (join (lit " ") reviews)) 10) as (_ & Hcount & _).
  destruct (Hcount word k Hin) as (Hk & Hpos).
  assert (Htoken : In word (split (join (lit " ") reviews))).
  { apply (count_occ_In str_eq_dec). lia. }
  pose proof (split_from_words (join (lit " ") reviews) (Forall_nil _)) as Hwords.
  rewrite Forall_forall in Hwords. destruct (Hwords word Htoken) as (Hne & Hclean).
  repeat split; auto.
  rewrite split_join in Htoken. apply in_concat in Htoken as (words & Hwordsin & Hw).
  apply in_map_iff in Hwordsin as (review & <- & Hreview).
  now exists review.
Qed.

Lemma charted_words_are_review_words_witness :
  exists review, In review [lit "a a b"; lit "b c"] /\ In (lit "b") (split review).
Proof.
  edestruct (@charted_words_are_review_words [lit "a a b"; lit "b c"] (lit "b") 2)
    as (_ & _ & _ & Hreview).
  - vm_compute. right. left. reflexivity.
  - exact Hreview.
Defined.

(** X11: the word chart has no entry exactly when every review consists
    of whitespace only (or there is no review at all). *)
Theorem empty_chart_iff_blank_reviews (reviews : list str) :
  word_frequency reviews = []
  <-> Forall (Forall (fun c => isspace c = true)) reviews.
Proof.
  assert (Hblank : concat (List.map split reviews) = []
                   <-> Forall (Forall (fun c => isspace c = true)) reviews).
  { induction reviews as [| r rs IH]; simpl.
    - split; intros _; [constructor | reflexivity].
    - split; intros H.
      + apply app_eq_nil in H as [Hr Hrs].
        constructor; [apply split_from_nil in Hr; tauto | now apply IH].
      + inversion H as [| ? ? Hr Hrs]; subst.
        assert (Hsplit : split r = []) by (apply split_from_nil; auto).
        rewrite Hsplit. simpl. now apply IH. }
  rewrite <- Hblank, <- split_join.
  split; intros H.
  - destruct (split (join (lit " ") reviews)) as [| t tokens] eqn:E; [reflexivity |].
    exfalso.
    destruct (most_common_spec (t :: tokens) 10) as (_ & _ & _ & _ & Hout).
    unfold word_frequency in H. rewrite E in H.
    destruct (Hout t) as (Hlen & _); [now left | rewrite H; easy |].
    rewrite H in Hlen. discriminate.
  - unfold word_frequency. rewrite H. reflexivity.
Qed.

(** ** The rows of an upload without quotes *)

(** Outside quoted fields the automaton cuts a line at its commas. *)
Lemma feed_plain (line : str) :
  forall (s : Csv.state) (cur : str) (saved : list str),
    s = Csv.START_FIELD \/ s = Csv.IN_FIELD ->
    Forall (fun c => plain_char c = true) line ->
    (N.of_nat (List.length cur + List.length line) <= 131072)%N ->
    Csv.feed_line {| Csv.st := s; Csv.field := cur; Csv.fields := saved |} line
    = Ok {| Csv.st := Csv.START_RECORD; Csv.field := [];
            Csv.fields := rev (comma_fields cur line) ++ saved |}.
Proof.
  induction line as [| c line IH]; intros s cur saved Hs Hline Hlen.
  - destruct Hs as [-> | ->]; reflexivity.
  - inversion Hline as [| ? ? Hc Hrest]; subst.
    unfold plain_char in Hc. apply andb_true_iff in Hc as [Hq Hn].
    apply negb_true_iff in Hq, Hn.
    assert (Hroom : (Csv.field_limit <=? N.of_nat (List.length cur))%N = false).
    { apply N.leb_gt. unfold Csv.field_limit. simpl List.length in Hlen. lia. }
    cbn [Csv.feed_line comma_fields].
    destruct (c =? Csv.delimiter)%N eqn:Ed.
    + assert (Hstep : Csv.parse_process_char
                        {| Csv.st := s; Csv.field := cur; Csv.fields := saved |} (Some c)
                      = Ok {| Csv.st := Csv.START_FIELD; Csv.field := [];
                              Csv.fields := rev cur :: saved |}).
      { destruct Hs as [-> | ->];
          unfold Csv.parse_process_char, Csv.in_start_field; cbn [Csv.st];
          rewrite Hn, ?Hq, Ed; reflexivity. }
      rewrite Hstep, IH; auto.
      * cbn [rev]. now rewrite <- app_assoc.
      * simpl List.length in *. lia.
    + assert (Hstep : Csv.parse_process_char
                        {| Csv.st := s; Csv.field := cur; Csv.fields := saved |} (Some c)
                      = Ok {| Csv.st := Csv.IN_FIELD; Csv.field := c :: cur;
                              Csv.fields := saved |}).
      { destruct Hs as [-> | ->];
          unfold Csv.parse_process_char, Csv.in_start_field, Csv.parse_add_char;
          cbn [Csv.st Csv.field Csv.fields];
          rewrite Hn, ?Hq, Ed, Hroom; reflexivity. }
      rewrite Hstep, IH; auto.
      simpl List.length in *. lia.
Qed.

Lemma feed_plain_line (line : str) :
  Forall (fun c => plain_char c = true) line ->
  (N.of_nat (List.length line) <= 131072)%N ->
  Csv.feed_line Csv.parse_reset line
  = Ok {| Csv.st := Csv.START_RECORD; Csv.field := [];
          Csv.fields := rev (plain_row line) |}.
Proof.
  intros Hline Hlen. destruct line as [| c line]; [reflexivity |].
  assert (Hfirst : Csv.feed_line Csv.parse_reset (c :: line)
                   = Csv.feed_line {| Csv.st := Csv.START_FIELD; Csv.field := [];
                                      Csv.fields := [] |} (c :: line)).
  { inversion Hline as [| ? ? Hc _]; subst.
    unfold plain_char in Hc. apply andb_true_iff in Hc as [_ Hn].
    apply negb_true_iff in Hn.
    cbn [Csv.feed_line]. unfold Csv.parse_process_char at 1.
    cbn [Csv.st Csv.parse_reset]. rewrite Hn. reflexivity. }
  rewrite Hfirst, feed_plain; auto.
  now rewrite app_nil_r.
Qed.

Lemma iterate_plain (lines : list str) :
  Forall (fun line => Forall (fun c => plain_char c = true) line
                      /\ (N.of_nat (List.length line) <= 131072)%N) lines ->
  Csv.iterate Csv.parse_reset lines = (List.map plain_row lines, None).
Proof.
  induction 1 as [| line lines [Hline Hlen] Hrest IH]; [reflexivity |].
  cbn [Csv.iterate]. rewrite (feed_plain_line Hline Hlen). cbn [Csv.st Csv.fields].
  rewrite IH, rev_involutive. reflexivity.
Qed.

(** X12: for an upload text without any double quote and of at most
    131072 characters the reader raises nothing, and its rows are the
    lines of the text cut at their commas, an empty line giving a row
    without fields. *)
Theorem rows_of_text_without_quotes (text : str) :
  Forall (fun c => c <> Csv.quotechar) text ->
  (N.of_nat (List.length text) <= 131072)%N ->
  Csv.reader_rows (splitlines text) = (List.map plain_row (splitlines text), None).
Proof.
  intros Hquote Hlen. unfold Csv.reader_rows. apply iterate_plain.
  apply Forall_impl with (2 := splitlines_chars Hquote).
  intros line (Hq & Hn & Hshort). split; [| lia].
  rewrite Forall_forall in *. intros c Hc. unfold plain_char.
  pose proof (Hq c Hc) as Hqc. apply N.eqb_neq in Hqc.
  rewrite (Hn c Hc), Hqc. reflexivity.
Qed.

Lemma rows_of_text_without_quotes_witness :
  Csv.reader_rows (splitlines (lit Demo.reviews_csv))
  = ([[lit "good one"]; [lit "bad"]; []; [lit "good two"; lit "x"]], None).
Proof.
  rewrite (@rows_of_text_without_quotes (lit Demo.reviews_csv)).
  - vm_compute. reflexivity.
  - apply Forall_forall. intros c Hc. vm_compute in Hc.
    repeat (destruct Hc as [<- | Hc]; [discriminate |]). destruct Hc.
  - vm_compute. discriminate.
Defined.
